(** * SRU queue metrics ([metrics/foundations_sru.py])

    A shallow embedding of the collector that samples the Stable Release
    Update review queue: the per-series queue and age statistics taken from
    the upload-tracking service, the verified-and-ready count scraped from
    the pending-SRU HTML report, and the console/gateway publishing step.

    Python values are modelled as follows.
    - [int] is [Z]; [str] is [string]; [bool] is [bool].
    - A function that may raise returns a [result]; the exception classes the
      module can meet are the constructors of [pyexn].
    - A [dict] keeps insertion order, so it is an association list whose
      keys are pairwise distinct ([dict_set] overwrites in place).
    - A parsed document is a tree of [node]s; BeautifulSoup's navigation
      ([findAll], [previous], [text], [string], attribute access) is written
      out over that tree.
    - Output is a trace of [event]s: console lines, log records and pushes
      to the metrics gateway. *)

From Stdlib Require Import ZArith String Ascii List Lia.
From stdpp Require Import base decidable option list strings pretty gmap.

#[local] Set Warnings "-clear-no-such-hyp,-register-all".
Local Open Scope Z_scope.

(** ** Exceptions and results *)

Inductive pyexn : Type :=
  | ValueError
  | IndexError
  | TypeError
  | KeyError
  | AttributeError
  | HTMLParseError
  | URLError.

#[global] Instance pyexn_eq_dec : EqDecision pyexn.
Proof. solve_decision. Defined.

Inductive result (A : Type) : Type :=
  | Ok (a : A)
  | Raise (e : pyexn).

Arguments Ok {A} a.
Arguments Raise {A} e.

#[global] Instance result_eq_dec {A} `{EqDecision A} : EqDecision (result A).
Proof. solve_decision. Defined.

#[global] Instance result_ret : MRet result := λ A a, Ok a.
#[global] Instance result_bind : MBind result := λ A B f m,
  match m with
  | Ok a => f a
  | Raise e => Raise e
  end.

#[global] Instance result_fmap : FMap result := λ A B f m,
  match m with
  | Ok a => Ok (f a)
  | Raise e => Raise e
  end.

Definition raises {A} (m : result A) : Prop := ∃ e, m = Raise e.

(** ** Insertion-ordered dictionaries *)

Section pydict.
Context {K V : Type} `{EqDecision K}.

Fixpoint dict_get (k : K) (d : list (K * V)) : option V :=
  match d with
  | [] => None
  | (k', v) :: d' => if decide (k = k') then Some v else dict_get k d'
  end.

(** [d[k] = v]: an existing key keeps its position. *)
Fixpoint dict_set (k : K) (v : V) (d : list (K * V)) : list (K * V) :=
  match d with
  | [] => [(k, v)]
  | (k', v') :: d' =>
      if decide (k = k') then (k', v) :: d' else (k', v') :: dict_set k v d'
  end.

Definition keys (d : list (K * V)) : list K := d.*1.
End pydict.

(** [l.remove(x)]: drops the first element equal to [x], [ValueError] when
    there is none. *)
Fixpoint list_remove {A} `{EqDecision A} (x : A) (l : list A) : result (list A) :=
  match l with
  | [] => Raise ValueError
  | y :: l' =>
      if decide (y = x) then Ok l'
      else l'' ← list_remove x l'; Ok (y :: l'')
  end.

(** ** The upload-tracking service *)

Record Upload : Type := {
  date_created : Z;   (* naive timestamp, in microseconds *)
  status : string;
  pocket : string
}.

#[global] Instance Upload_eq_dec : EqDecision Upload.
Proof. solve_decision. Defined.

Record Series : Type := {
  name : string;
  active : bool;
  package_uploads : list Upload
}.

#[global] Instance Series_eq_dec : EqDecision Series.
Proof. solve_decision. Defined.

Record Distribution : Type := {
  series : list Series;
  current_series : Series
}.

(** [series.getPackageUploads(status=..., pocket=...)] *)
Definition getPackageUploads (s : Series) (st pk : string) : list Upload :=
  filter (λ u, status u = st ∧ pocket u = pk) (package_uploads s).

(** ** Queue depth per series *)

Definition stable_series_of (ubuntu : Distribution) : result (list Series) :=
  list_remove (current_series ubuntu) (filter (λ s, active s) (series ubuntu)).

Definition sru_queue_count (ubuntu : Distribution) : result (list (string * Z)) :=
  stable_series ← stable_series_of ubuntu;
  Ok (fold_left
        (λ per_series s,
           dict_set (name s)
             (Z.of_nat (length (getPackageUploads s "Unapproved" "Proposed")))
             per_series)
        stable_series []).

(** ** Age statistics per series *)

Record SeriesAgeStats : Type := {
  oldest_age_in_days : Z;
  ten_day_backlog_count : Z;
  ten_day_backlog_age : Z
}.

Definition microseconds_per_day : Z := 86400 * 1000000.

(** [(today - upload.date_created.replace(tzinfo=None)).days]: a timedelta
    is normalised with a non-negative sub-day part, so [.days] is the floor. *)
Definition age_in_days (today : Z) (upload : Upload) : Z :=
  (today - date_created upload) `div` microseconds_per_day.

(** Loop state: [(oldest_age_in_days, backlog_age, backlog_count)]. *)
Definition age_step (acc : Z * Z * Z) (age : Z) : Z * Z * Z :=
  let '(oldest, backlog_age, backlog_count) := acc in
  let oldest := if decide (age > oldest) then age else oldest in
  if decide (age > 10)
  then (oldest, backlog_age + (age - 10), backlog_count + 1)
  else (oldest, backlog_age, backlog_count).

Definition age_stats (ages : list Z) : SeriesAgeStats :=
  let '(oldest, backlog_age, backlog_count) := fold_left age_step ages (0, 0, 0) in
  {| oldest_age_in_days := oldest;
     ten_day_backlog_count := backlog_count;
     ten_day_backlog_age := backlog_age |}.

Definition series_age_stats (today : Z) (s : Series) : SeriesAgeStats :=
  age_stats (age_in_days today <$> getPackageUploads s "Unapproved" "Proposed").

(** [datetime.today()] is read once per series: [clock i] is the value of
    the [i]-th reading. *)
Fixpoint sru_ages_loop (clock : nat → Z) (i : nat) (stable_series : list Series)
    (per_series : list (string * SeriesAgeStats)) : list (string * SeriesAgeStats) :=
  match stable_series with
  | [] => per_series
  | s :: rest =>
      sru_ages_loop clock (S i) rest
        (dict_set (name s) (series_age_stats (clock i) s) per_series)
  end.

Definition sru_ages (clock : nat → Z) (ubuntu : Distribution)
    : result (list (string * SeriesAgeStats)) :=
  stable_series ← stable_series_of ubuntu;
  Ok (sru_ages_loop clock 0 stable_series []).

(** ** The parsed report: BeautifulSoup's tree *)

(** An attribute value is a string, or a list of strings for the
    multi-valued attributes ([class] among them). *)
Inductive attrval : Type :=
  | AttrStr (s : string)
  | AttrList (l : list string).

#[global] Instance attrval_eq_dec : EqDecision attrval.
Proof. solve_decision. Defined.

Inductive node : Type :=
  | NavigableString (s : string)
  | Tag (tag_name : string) (attrs : gmap string attrval) (contents : list node).

(** Two strings are equal when their text is; two tags when their names,
    attribute dictionaries and contents are. *)
#[global] Instance node_eq_dec : EqDecision node.
Proof.
  refine (fix go (a b : node) {struct a} : Decision (a = b) :=
    match a, b with
    | NavigableString s, NavigableString t => cast_if (decide (s = t))
    | Tag n1 a1 c1, Tag n2 a2 c2 =>
        cast_if_and3 (decide (n1 = n2)) (decide (a1 = a2))
                     (@list_eq_dec _ go c1 c2)
    | _, _ => right _
    end); congruence.
Defined.

(** Document order: a node, then its contents, left to right. *)
Fixpoint elements (n : node) : list node :=
  n :: match n with
       | NavigableString _ => []
       | Tag _ _ c => flat_map elements c
       end.

Definition descendants (n : node) : list node :=
  match n with
  | NavigableString _ => []
  | Tag _ _ c => flat_map elements c
  end.

Definition is_tag (nm : string) (n : node) : bool :=
  match n with
  | NavigableString _ => false
  | Tag t _ _ => bool_decide (t = nm)
  end.

(** [n.findAll(nm)] (also [findChildren]): every descendant tag of that
    name, in document order. *)
Definition findAll (nm : string) (n : node) : list node :=
  filter (λ x, is_tag nm x) (descendants n).

Definition has_attr (key : string) (n : node) : bool :=
  match n with
  | NavigableString _ => false
  | Tag _ a _ => bool_decide (is_Some (a !! key))
  end.

(** [n[key]] *)
Definition getitem (n : node) (key : string) : result attrval :=
  match n with
  | NavigableString _ => Raise TypeError
  | Tag _ a _ =>
      match a !! key with
      | Some v => Ok v
      | None => Raise KeyError
      end
  end.

(** [n.text]: all the strings below [n], concatenated. *)
Fixpoint text (n : node) : string :=
  match n with
  | NavigableString s => s
  | Tag _ _ c => fold_right (λ x acc, text x +:+ acc) "" c
  end.

(** [n.string]: the string of a tag whose contents are a single string, or a
    single tag that has one; [None] otherwise. *)
Fixpoint tag_string (n : node) : option string :=
  match n with
  | NavigableString s => Some s
  | Tag _ _ [c] => tag_string c
  | Tag _ _ _ => None
  end.

(** ** Strings *)

(** [needle in hay] *)
Fixpoint str_in (needle hay : string) : bool :=
  String.prefix needle hay ||
  match hay with
  | EmptyString => false
  | String _ hay' => str_in needle hay'
  end.

(** ['verified' in v] for an attribute value *)
Definition attr_contains (x : string) (v : attrval) : bool :=
  match v with
  | AttrStr s => str_in x s
  | AttrList l => bool_decide (x ∈ l)
  end.

(** [s.replace(old, new)] for a non-empty [old]; [skip] counts the
    characters of a match still to be dropped. *)
Fixpoint str_replace_from (old new : string) (skip : nat) (s : string) : string :=
  match s with
  | EmptyString => EmptyString
  | String c s' =>
      match skip with
      | S k => str_replace_from old new k s'
      | O =>
          if String.prefix old s
          then new +:+ str_replace_from old new (String.length old - 1) s'
          else String c (str_replace_from old new 0 s')
      end
  end.

Definition str_replace (old new s : string) : string :=
  str_replace_from old new 0 s.

(** *** [int(s)] *)

(** Text is ASCII here: [int] strips the characters 9 to 13 and the space,
    and reads the digits 0 to 9.  White space and digits outside ASCII, and
    the interpreter's cap on the number of digits, are not modelled. *)
Definition is_space (a : ascii) : bool :=
  let n := nat_of_ascii a in
  bool_decide (9 ≤ n ≤ 13)%nat || bool_decide (n = 32)%nat.

Definition digit_of (a : ascii) : option Z :=
  let n := nat_of_ascii a in
  if bool_decide (48 ≤ n ≤ 57)%nat then Some (Z.of_nat n - 48) else None.

Fixpoint lstrip (cs : list ascii) : list ascii :=
  match cs with
  | c :: cs' => if is_space c then lstrip cs' else cs
  | [] => []
  end.

Definition strip (cs : list ascii) : list ascii :=
  reverse (lstrip (reverse (lstrip cs))).

(** Decimal digits, single underscores allowed between two digits. *)
Fixpoint digits_value (acc : Z) (after_digit : bool) (ds : list ascii) : option Z :=
  match ds with
  | [] => if after_digit then Some acc else None
  | c :: ds' =>
      match digit_of c with
      | Some d => digits_value (10 * acc + d) true ds'
      | None =>
          if bool_decide (c = "_"%char) && after_digit
          then digits_value acc false ds'
          else None
      end
  end.

Definition int_of_string (s : string) : result Z :=
  let cs := strip (list_ascii_of_string s) in
  let '(negative, ds) :=
    match cs with
    | c :: r =>
        if bool_decide (c = "-"%char) then (true, r)
        else if bool_decide (c = "+"%char) then (false, r)
        else (false, cs)
    | [] => (false, cs)
    end in
  match digits_value 0 false ds with
  | Some n => Ok (if negative then - n else n)
  | None => Raise ValueError
  end.

(** [int(x)] where [x] is a string or [None] *)
Definition py_int (x : option string) : result Z :=
  match x with
  | None => Raise TypeError
  | Some s => int_of_string s
  end.

(** [l[i]] *)
Definition list_index {A} (l : list A) (i : nat) : result A :=
  match l !! i with
  | Some x => Ok x
  | None => Raise IndexError
  end.

(** ** Verified-and-ready count per release *)

Definition is_failure (failure : string) : bool :=
  str_in "Failed" failure ||
  str_in "Dependency wait" failure ||
  str_in "Cancelled" failure ||
  str_in "Regression in autopkgtest" failure.

(** The loop over the bug links of a row: the value of [verified] when the
    loop ends or breaks. *)
Fixpoint all_verified (bugs : list node) : result bool :=
  match bugs with
  | [] => Ok true
  | bug :: rest =>
      cls ← getitem bug "class";
      if negb (attr_contains "verified" cls) then Ok false
      else all_verified rest
  end.

(** One pass of the loop over the rows: does the row increment the count? *)
Definition row_ready (tag : node) : result bool :=
  let cols := findAll "td" tag in
  if decide (length cols = 0%nat) then Ok false else
  c0 ← list_index cols 0;
  let failure := text c0 in
  if is_failure failure then Ok false else
  c5 ← list_index cols 5;
  days ← py_int (tag_string c5);
  if decide (days >= 7) then
    c4 ← list_index cols 4;
    all_verified (findAll "a" c4)
  else Ok false.

(** Keys of [ready_srus]: whatever [table.previous.previous] is, a node of
    the tree or Python's [None]. *)
Definition ready_dict : Type := list (option node * Z).

(** [ready_srus[release] += 1] *)
Definition dict_incr (release : option node) (ready_srus : ready_dict)
    : result ready_dict :=
  match dict_get release ready_srus with
  | Some n => Ok (dict_set release (n + 1) ready_srus)
  | None => Raise KeyError
  end.

Fixpoint scan_rows (release : option node) (trs : list node)
    (ready_srus : ready_dict) : result ready_dict :=
  match trs with
  | [] => Ok ready_srus
  | tag :: rest =>
      ready ← row_ready tag;
      ready_srus ← (if ready : bool then dict_incr release ready_srus
                    else Ok ready_srus);
      scan_rows release rest ready_srus
  end.

Definition summary_heading : string := "Upload queue status at a glance:".

(** [x.previous] for the element at position [i] of the document: the
    element parsed just before it, [None] for the first one. *)
Definition previous (i : nat) : option nat :=
  match i with
  | O => None
  | S j => Some j
  end.

(** [table.previous.previous] for the table at position [i]. *)
Definition release_of (doc : list node) (i : nat) : result (option node) :=
  match previous i with
  | None => Raise AttributeError
  | Some j =>
      match previous j with
      | None => Ok None
      | Some k => Ok (doc !! k)
      end
  end.

(** [soup.findAll('table')], each table with its position in the document. *)
Definition tables_of (soup : node) : list (nat * node) :=
  filter (λ p, is_tag "table" p.2)
         (zip (seq 1 (length (descendants soup))) (descendants soup)).

Fixpoint scan_tables (doc : list node) (tables : list (nat * node))
    (ready_srus : ready_dict) : result ready_dict :=
  match tables with
  | [] => Ok ready_srus
  | (i, table) :: rest =>
      if negb (has_attr "id" table) then scan_tables doc rest ready_srus else
      release ← release_of doc i;
      if decide (release = Some (NavigableString summary_heading))
      then scan_tables doc rest ready_srus else
      ready_srus ← scan_rows release (findAll "tr" table)
                     (dict_set release 0 ready_srus);
      scan_tables doc rest ready_srus
  end.

(** The body of [sru_verified_and_ready_count] once the document is parsed. *)
Definition ready_count_of_soup (soup : node) : result ready_dict :=
  scan_tables (elements soup) (tables_of soup) [].

(** ** Runs: the outside world, traces and programs *)

Record Gauge : Type := {
  gauge_name : string;
  documentation : string;
  labelnames : list string;
  samples : list (string * Z)   (* one child per label value, last [set] wins *)
}.

Inductive event : Type :=
  | Print (line : string)
  | LogError (msg : string)
  | PushGateway (job : string) (registry : list Gauge).

Record World : Type := {
  ubuntu : Distribution;                 (* lp.get_ubuntu() *)
  today : nat → Z;                       (* successive datetime.today() *)
  urlopen_read : result string;          (* urlopen(url).read() *)
  BeautifulSoup : string → result node;  (* the lxml tree builder *)
  tag_str : node → string;               (* str() of a tag: its markup *)
  push2gateway : string → list Gauge → result unit
}.

Record prog (A : Type) : Type := Prog {
  trace : list event;
  outcome : result A
}.

Arguments Prog {A} trace outcome.
Arguments trace {A} p.
Arguments outcome {A} p.

#[global] Instance prog_ret : MRet prog := λ A a, Prog [] (Ok a).
#[global] Instance prog_bind : MBind prog := λ A B f m,
  match outcome m with
  | Ok a => Prog (trace m ++ trace (f a)) (outcome (f a))
  | Raise e => Prog (trace m) (Raise e)
  end.

Definition lift {A} (m : result A) : prog A := Prog [] m.
Definition emit (e : event) : prog unit := Prog [e] (Ok ()).
Definition print (line : string) : prog unit := emit (Print line).

Fixpoint print_lines (lines : list string) : prog unit :=
  match lines with
  | [] => mret ()
  | l :: rest => _ ← print l; print_lines rest
  end.

(** [sru_verified_and_ready_count()]: [None] is Python's [None], returned
    by the bare [return] of the exception handler. *)
Definition sru_verified_and_ready_count (w : World) : prog (option ready_dict) :=
  report_contents ← lift (urlopen_read w);
  match BeautifulSoup w report_contents with
  | Raise HTMLParseError =>
      _ ← emit (LogError "Error parsing SRU report");
      mret None
  | Raise e => lift (Raise e)
  | Ok soup => ready_srus ← lift (ready_count_of_soup soup); mret (Some ready_srus)
  end.

(** ** [collect] *)

Definition q_name : string := "Proposed Uploads in the Unapproved Queue per Series".

(** [str(k)] for a key of [ready_srus] *)
Definition str_of_key (w : World) (k : option node) : string :=
  match k with
  | None => "None"
  | Some (NavigableString s) => s
  | Some t => tag_str w t
  end.

(** ['%s: %s' % (series, value)] *)
Definition fmt_line (series : string) (value : Z) : string :=
  series +:+ ": " +:+ pretty value.

(** A gauge with one label, after [labels(k).set(v)] for each pair. *)
Definition make_gauge (nm doc : string) (values : list (string * Z)) : Gauge :=
  {| gauge_name := nm;
     documentation := doc;
     labelnames := ["series"];
     samples := fold_left (λ acc kv, dict_set kv.1 kv.2 acc) values [] |}.

(** [ready_srus.items()] *)
Definition items {K V} (d : option (list (K * V))) : result (list (K * V)) :=
  match d with
  | Some l => Ok l
  | None => Raise AttributeError
  end.

Definition collect (dryrun : bool) (w : World) : prog unit :=
  sru_queues ← lift (sru_queue_count (ubuntu w));
  ready_srus ← sru_verified_and_ready_count w;
  sru_age_data ← lift (sru_ages (today w) (ubuntu w));
  _ ← print ("Number of " +:+ q_name +:+ ":");
  _ ← print_lines ((λ kv, fmt_line kv.1 kv.2) <$> sru_queues);
  _ ← print ("Age in days of oldest " +:+
             str_replace "Uploads" "Upload" q_name +:+ ":");
  _ ← print_lines
        ((λ kv, fmt_line kv.1 (oldest_age_in_days kv.2)) <$> sru_age_data);
  _ ← print ("Backlog age in days of " +:+ q_name +:+ ":");
  _ ← print_lines
        ((λ kv, fmt_line kv.1 (ten_day_backlog_age kv.2)) <$> sru_age_data);
  _ ← print ("Number of backlogged " +:+ q_name +:+ ":");
  _ ← print_lines
        ((λ kv, fmt_line kv.1 (ten_day_backlog_count kv.2)) <$> sru_age_data);
  _ ← print "Number of Publishable Updates in Proposed per Series:";
  ready_items ← lift (items ready_srus);
  _ ← print_lines ((λ kv, fmt_line (str_of_key w kv.1) kv.2) <$> ready_items);
  if negb dryrun then
    _ ← print "Pushing data...";
    let registry :=
      [ make_gauge "distro_sru_unapproved_proposed_count"
          ("Number of " +:+ q_name)
          sru_queues;
        make_gauge "distro_sru_unapproved_proposed_oldest_age"
          ("Age in days of oldest " +:+ str_replace "Uploads" "Upload" q_name)
          ((λ kv, (kv.1, oldest_age_in_days kv.2)) <$> sru_age_data);
        make_gauge "distro_sru_unapproved_proposed_ten_day_backlog_age"
          ("Backlog age in days of " +:+ q_name)
          ((λ kv, (kv.1, ten_day_backlog_age kv.2)) <$> sru_age_data);
        make_gauge "distro_sru_unapproved_proposed_ten_day_backlog_count"
          ("Number of backlogged " +:+ q_name)
          ((λ kv, (kv.1, ten_day_backlog_count kv.2)) <$> sru_age_data);
        make_gauge "distro_sru_verified_and_ready_count"
          "Number of Publishable Updates in Proposed per Series"
          ((λ kv, (str_of_key w kv.1, kv.2)) <$> ready_items) ] in
    _ ← emit (PushGateway "foundations-sru" registry);
    lift (push2gateway w "foundations-sru" registry)
  else mret ().

(** ** Fixtures used in the examples *)

Definition mk_upload (created : Z) : Upload :=
  {| date_created := created; status := "Unapproved"; pocket := "Proposed" |}.

Definition days_ago (n : Z) : Z := - n * microseconds_per_day.

Definition series_A : Series :=
  {| name := "A"; active := true;
     package_uploads := [mk_upload (days_ago 3); mk_upload (days_ago 12);
                         mk_upload (days_ago 25)] |}.
Definition series_B : Series :=
  {| name := "B"; active := true; package_uploads := [] |}.
Definition series_C : Series :=
  {| name := "C"; active := true; package_uploads := [mk_upload 0] |}.

Definition ubuntu_ABC : Distribution :=
  {| series := [series_A; series_B; series_C]; current_series := series_C |}.

(** ** Vocabulary of the statements *)

(** The series both computations are meant to iterate over: the active ones
    other than the current one. *)
Definition accounted (ubuntu : Distribution) (s : Series) : Prop :=
  s ∈ series ubuntu ∧ active s = true ∧ s ≠ current_series ubuntu.

(** The largest of a list of ages, 0 for the empty list. *)
Definition max_age (ages : list Z) : Z :=
  match ages with
  | [] => 0
  | a :: rest => fold_left Z.max rest a
  end.

Definition sum_Z (l : list Z) : Z := fold_right Z.add 0 l.

(** The uploads that are late: older than ten days. *)
Definition backlogged (ages : list Z) : list Z := filter (λ a, a > 10) ages.

(** The ages of the uploads of a series that match the queue. *)
Definition ages_of (today : Z) (s : Series) : list Z :=
  age_in_days today <$> getPackageUploads s "Unapproved" "Proposed".

(** An upload stamped one hour after the reading of the clock, as happens
    when the local clock is behind the service's. *)
Definition series_ahead : Series :=
  {| name := "A"; active := true;
     package_uploads := [mk_upload 3600000000] |}.

(** A bug link that carries the "verified" classification:
    ['verified' in bug['class']] evaluates to [True]. *)
Definition verified_link (bug : node) : Prop :=
  ∃ cls, getitem bug "class" = Ok cls ∧ attr_contains "verified" cls = true.

(** Rows and links as the report lays them out. *)
Definition td (c : list node) : node := Tag "td" ∅ c.

Definition bug_link (cls : list string) : node :=
  Tag "a" {[ "class" := AttrList cls ]} [NavigableString "#1"].

Definition report_row (first days : string) (bugs : list node) : node :=
  Tag "tr" ∅ [td [NavigableString first]; td []; td []; td [];
              td bugs; td [NavigableString days]].

(** A table that passes the two tests of the table loop, with the key it
    is counted under. *)
Definition counted_as (doc : list node) (release : option node)
    (p : nat * node) : Prop :=
  has_attr "id" p.2 = true ∧
  release_of doc p.1 = Ok release ∧
  release ≠ Some (NavigableString summary_heading).

#[global] Instance counted_as_dec doc release p : Decision (counted_as doc release p).
Proof. unfold counted_as. apply _. Defined.

(** The tables counted under one key, in document order. *)
Definition release_tables (doc : list node) (tables : list (nat * node))
    (release : option node) : list (nat * node) :=
  filter (counted_as doc release) tables.

(** A table the loop does not skip. *)
Definition scanned (doc : list node) (p : nat * node) : Prop :=
  has_attr "id" p.2 = true ∧
  release_of doc p.1 ≠ Ok (Some (NavigableString summary_heading)).

#[global] Instance scanned_dec doc p : Decision (scanned doc p).
Proof. unfold scanned. apply _. Defined.

(** The number of rows of a list that increment the count. *)
Fixpoint count_ready (trs : list node) : result Z :=
  match trs with
  | [] => Ok 0
  | tag :: rest =>
      ready ← row_ready tag;
      n ← count_ready rest;
      Ok ((if ready : bool then 1 else 0) + n)
  end.

(** Following the words of the specification: the text node immediately
    preceding the element at position [i] in document order. *)
Definition preceding_text (doc : list node) (i : nat) : option string :=
  match i with
  | O => None
  | S j =>
      match doc !! j with
      | Some (NavigableString s) => Some s
      | _ => None
      end
  end.

(** Documents as the lxml builder shapes them. *)
Definition newline : string := String (ascii_of_nat 10) EmptyString.

Definition report_table (id : string) (rows : list node) : node :=
  Tag "table" {[ "id" := AttrStr id ]} rows.

Definition heading (title : string) : node := Tag "h3" ∅ [NavigableString title].

Definition document (body : list node) : node :=
  Tag "[document]" ∅ [Tag "html" ∅ [Tag "body" ∅ body]].

(** The layout of the report: a heading, a line break, the table. *)
Definition soup_report : node :=
  document
    [ heading summary_heading; NavigableString newline;
      report_table "queues" [report_row "pkg" "9" []];
      heading "Xenial"; NavigableString newline;
      report_table "xenial"
        [ Tag "tr" ∅ [Tag "th" ∅ [NavigableString "Package"]];
          report_row "pkg" "7" [bug_link ["verified"]];
          report_row "pkg" "6" [] ] ].

(** The heading text directly in front of the table. *)
Definition soup_adjacent : node :=
  document
    [ NavigableString summary_heading;
      report_table "queues" [report_row "pkg" "9" []] ].

(** Two tables under the same release name. *)
Definition soup_twice : node :=
  document
    [ heading "Xenial"; NavigableString newline;
      report_table "xenial" [report_row "pkg" "9" []; report_row "pkg" "8" []];
      heading "Xenial"; NavigableString newline;
      report_table "xenial-2" [report_row "pkg" "3" []] ].

(** Rows that do not have the expected shape. *)
Definition soup_short_row : node :=
  document
    [ heading "Xenial"; NavigableString newline;
      report_table "xenial" [Tag "tr" ∅ [td [NavigableString "pkg"]]] ].

Definition soup_bad_days : node :=
  document
    [ heading "Xenial"; NavigableString newline;
      report_table "xenial" [report_row "pkg" "n/a" []] ].

Definition soup_unclassified_bug : node :=
  document
    [ heading "Xenial"; NavigableString newline;
      report_table "xenial"
        [report_row "pkg" "9" [Tag "a" ∅ [NavigableString "#1"]]] ].

(** The number of pushes to the gateway in a trace. *)
Definition is_push (e : event) : bool :=
  match e with
  | PushGateway _ _ => true
  | _ => false
  end.

Definition push_count (tr : list event) : nat :=
  length (filter (λ e, is_push e) tr).

(** The console report: five families, each a heading and one line per
    series or release. *)
Definition console_report (w : World) (sru_queues : list (string * Z))
    (sru_age_data : list (string * SeriesAgeStats)) (ready_srus : ready_dict)
    : list string :=
  ["Number of Proposed Uploads in the Unapproved Queue per Series:"]
  ++ ((λ kv, fmt_line kv.1 kv.2) <$> sru_queues)
  ++ ["Age in days of oldest Proposed Upload in the Unapproved Queue per Series:"]
  ++ ((λ kv, fmt_line kv.1 (oldest_age_in_days kv.2)) <$> sru_age_data)
  ++ ["Backlog age in days of Proposed Uploads in the Unapproved Queue per Series:"]
  ++ ((λ kv, fmt_line kv.1 (ten_day_backlog_age kv.2)) <$> sru_age_data)
  ++ ["Number of backlogged Proposed Uploads in the Unapproved Queue per Series:"]
  ++ ((λ kv, fmt_line kv.1 (ten_day_backlog_count kv.2)) <$> sru_age_data)
  ++ ["Number of Publishable Updates in Proposed per Series:"]
  ++ ((λ kv, fmt_line (str_of_key w kv.1) kv.2) <$> ready_srus).

(** The names of the five gauge families, in the order they are registered. *)
Definition gauge_families : list string :=
  [ "distro_sru_unapproved_proposed_count";
    "distro_sru_unapproved_proposed_oldest_age";
    "distro_sru_unapproved_proposed_ten_day_backlog_age";
    "distro_sru_unapproved_proposed_ten_day_backlog_count";
    "distro_sru_verified_and_ready_count" ].

(** A run over the report's layout. *)
Definition world_report : World :=
  {| ubuntu := ubuntu_ABC;
     today := λ _, 0;
     urlopen_read := Ok "<html>";
     BeautifulSoup := λ _, Ok soup_report;
     tag_str := λ _, "<tag>";
     push2gateway := λ _ _, Ok () |}.



(** A run whose report has a row with a sixth cell that is no number. *)
Definition world_bad_row : World :=
  {| ubuntu := ubuntu_ABC;
     today := λ _, 0;
     urlopen_read := Ok "<html>";
     BeautifulSoup := λ _, Ok soup_bad_days;
     tag_str := λ _, "<tag>";
     push2gateway := λ _ _, Ok () |}.



(** The queue depth of one series. *)
Definition queue_depth (s : Series) : Z :=
  Z.of_nat (length (getPackageUploads s "Unapproved" "Proposed")).

(** A distribution whose current series is no longer listed as active. *)
Definition ubuntu_stale : Distribution :=
  {| series := [series_A; series_B];
     current_series := {| name := "C"; active := false; package_uploads := [] |} |}.

Definition world_stale : World :=
  {| ubuntu := ubuntu_stale;
     today := λ _, 0;
     urlopen_read := Ok "<html>";
     BeautifulSoup := λ _, Ok soup_report;
     tag_str := λ _, "<tag>";
     push2gateway := λ _ _, Ok () |}.

(** The exception classes the scan of a report can end with. *)
Definition scan_exceptions : list pyexn :=
  [IndexError; TypeError; ValueError; KeyError].

(** The four markers of the first cell. *)
Definition failure_markers : list string :=
  ["Failed"; "Dependency wait"; "Cancelled"; "Regression in autopkgtest"].

(** A report whose only table has no [id], and rows of any shape. *)
Definition soup_anonymous : node :=
  document
    [ heading "Xenial"; NavigableString newline;
      Tag "table" ∅ [Tag "tr" ∅ [td [NavigableString "pkg"]]] ].

(** A table inside a cell of a row of another one. *)
Definition inner_table : node :=
  report_table "inner" [report_row "inner-pkg" "9" []].

Definition outer_table : node :=
  report_table "outer" [Tag "tr" ∅ [Tag "th" ∅ [inner_table]]].

(** The registry a normal run hands to the gateway, gauge by gauge. *)
Definition pushed_registry (w : World) (sru_queues : list (string * Z))
    (sru_age_data : list (string * SeriesAgeStats)) (ready_srus : ready_dict)
    : list Gauge :=
  [ make_gauge "distro_sru_unapproved_proposed_count"
      "Number of Proposed Uploads in the Unapproved Queue per Series"
      sru_queues;
    make_gauge "distro_sru_unapproved_proposed_oldest_age"
      "Age in days of oldest Proposed Upload in the Unapproved Queue per Series"
      ((λ kv, (kv.1, oldest_age_in_days kv.2)) <$> sru_age_data);
    make_gauge "distro_sru_unapproved_proposed_ten_day_backlog_age"
      "Backlog age in days of Proposed Uploads in the Unapproved Queue per Series"
      ((λ kv, (kv.1, ten_day_backlog_age kv.2)) <$> sru_age_data);
    make_gauge "distro_sru_unapproved_proposed_ten_day_backlog_count"
      "Number of backlogged Proposed Uploads in the Unapproved Queue per Series"
      ((λ kv, (kv.1, ten_day_backlog_count kv.2)) <$> sru_age_data);
    make_gauge "distro_sru_verified_and_ready_count"
      "Number of Publishable Updates in Proposed per Series"
      ((λ kv, (str_of_key w kv.1, kv.2)) <$> ready_srus) ].

(** A run whose report cannot be fetched. *)
Definition world_unreachable : World :=
  {| ubuntu := ubuntu_ABC;
     today := λ _, 0;
     urlopen_read := Raise URLError;
     BeautifulSoup := λ _, Ok soup_report;
     tag_str := λ _, "<tag>";
     push2gateway := λ _ _, Ok () |}.

(** * Properties *)

(** ** Dictionaries *)

Section pydict_facts.
Context {K V : Type} `{EqDecision K}.
Implicit Types (k : K) (v : V) (d : list (K * V)).

Lemma dict_get_set_eq k v d : dict_get k (dict_set k v d) = Some v.
Proof.
  induction d as [|[k' v'] d IH]; simpl.
  - by rewrite decide_True.
  - destruct (decide (k = k')) as [->|Hne]; simpl.
    + by rewrite decide_True.
    + by rewrite decide_False.
Qed.

Lemma dict_get_set_ne k k' v d :
  k ≠ k' → dict_get k (dict_set k' v d) = dict_get k d.
Proof.
  intros Hne. induction d as [|[k2 v2] d IH]; simpl.
  - by rewrite decide_False.
  - destruct (decide (k' = k2)) as [->|Hne2]; simpl.
    + by rewrite !decide_False.
    + destruct (decide (k = k2)); done.
Qed.

Lemma dict_set_set k v w d : dict_set k w (dict_set k v d) = dict_set k w d.
Proof.
  induction d as [|[k' v'] d IH]; simpl.
  - by rewrite decide_True.
  - destruct (decide (k = k')) as [->|Hne]; simpl.
    + by rewrite decide_True.
    + rewrite decide_False by done. by rewrite IH.
Qed.

Lemma dict_set_get_id k v d : dict_get k d = Some v → dict_set k v d = d.
Proof.
  induction d as [|[k' v'] d IH]; simpl; [done|].
  destruct (decide (k = k')) as [->|Hne].
  - by intros [= ->].
  - intros Hget. by rewrite IH.
Qed.

Lemma elem_of_keys_set k k' v d :
  k ∈ keys (dict_set k' v d) ↔ k = k' ∨ k ∈ keys d.
Proof.
  unfold keys. induction d as [|[k2 v2] d IH]; simpl.
  - set_solver.
  - destruct (decide (k' = k2)) as [->|Hne]; simpl.
    + set_solver.
    + rewrite !elem_of_cons, IH. naive_solver.
Qed.

Lemma elem_of_keys_get k d : k ∈ keys d ↔ is_Some (dict_get k d).
Proof.
  unfold keys. induction d as [|[k2 v2] d IH]; simpl.
  - split; [by intros ?%elem_of_nil | by intros [? ?]].
  - rewrite elem_of_cons, IH. destruct (decide (k = k2)); naive_solver.
Qed.

Lemma keys_set_NoDup k v d : NoDup (keys d) → NoDup (keys (dict_set k v d)).
Proof.
  unfold keys. induction d as [|[k2 v2] d IH]; simpl; intros Hnd.
  - apply NoDup_singleton.
  - apply NoDup_cons in Hnd as [Hnin Hnd].
    destruct (decide (k = k2)) as [->|Hne]; simpl.
    + by apply NoDup_cons.
    + apply NoDup_cons. split; [|by apply IH].
      intros Hin. apply (elem_of_keys_set k2 k v d) in Hin. naive_solver.
Qed.
End pydict_facts.

(** ** Series enumeration *)

Lemma list_remove_Ok {A} `{EqDecision A} (x : A) (l : list A) :
  x ∈ l → ∃ l', list_remove x l = Ok l'.
Proof.
  induction l as [|y l IH]; intros Hin; [by apply elem_of_nil in Hin|].
  simpl. destruct (decide (y = x)) as [->|Hne]; [by eexists|].
  apply elem_of_cons in Hin as [->|Hin]; [done|].
  destruct (IH Hin) as [l' ->]. by eexists.
Qed.

Lemma list_remove_Raise {A} `{EqDecision A} (x : A) (l : list A) :
  x ∉ l → list_remove x l = Raise ValueError.
Proof.
  induction l as [|y l IH]; intros Hin; [done|].
  apply not_elem_of_cons in Hin as [Hne Hin].
  simpl. rewrite decide_False by done. by rewrite IH.
Qed.

Lemma elem_of_list_remove {A} `{EqDecision A} (x : A) (l l' : list A) :
  NoDup l → list_remove x l = Ok l' → ∀ y, y ∈ l' ↔ y ∈ l ∧ y ≠ x.
Proof.
  revert l'. induction l as [|z l IH]; intros l' Hnd Hrm y; [done|].
  apply NoDup_cons in Hnd as [Hz Hnd]. simpl in Hrm.
  destruct (decide (z = x)) as [->|Hne].
  - injection Hrm as <-. rewrite elem_of_cons. split; [|naive_solver].
    intros Hy. split; [by right|]. by intros ->.
  - destruct (list_remove x l) as [l''|e] eqn:Hl; [|done].
    injection Hrm as <-. rewrite !elem_of_cons, (IH l'' Hnd eq_refl y).
    naive_solver.
Qed.

Lemma elem_of_keys_fold_set {A K V} `{EqDecision K} (f : A → K) (g : A → V)
    (l : list A) (d : list (K * V)) (k : K) :
  k ∈ keys (fold_left (λ acc x, dict_set (f x) (g x) acc) l d)
  ↔ k ∈ keys d ∨ ∃ x, x ∈ l ∧ f x = k.
Proof.
  revert d. induction l as [|x l IH]; intros d; simpl.
  - split; [by left|]. intros [?|(x & Hx & _)]; [done|by apply elem_of_nil in Hx].
  - rewrite IH, elem_of_keys_set. split.
    + intros [[->|?]|(y & Hy & <-)]; [right; exists x|by left|right; exists y];
        split; try done; by constructor.
    + intros [?|(y & [->|Hy]%elem_of_cons & <-)]; [by left; right|by left; left|].
      right. by exists y.
Qed.

Lemma elem_of_keys_sru_ages_loop clock i (l : list Series) d (k : string) :
  k ∈ keys (sru_ages_loop clock i l d) ↔ k ∈ keys d ∨ ∃ s, s ∈ l ∧ name s = k.
Proof.
  revert i d. induction l as [|x l IH]; intros i d; simpl.
  - split; [by left|]. intros [?|(x & Hx & _)]; [done|by apply elem_of_nil in Hx].
  - rewrite IH, elem_of_keys_set. split.
    + intros [[->|?]|(y & Hy & <-)]; [right; exists x|by left|right; exists y];
        split; try done; by constructor.
    + intros [?|(y & [->|Hy]%elem_of_cons & <-)]; [by left; right|by left; left|].
      right. by exists y.
Qed.

Lemma stable_series_of_spec (ubuntu : Distribution) :
  NoDup (series ubuntu) →
  current_series ubuntu ∈ series ubuntu →
  active (current_series ubuntu) = true →
  ∃ l, stable_series_of ubuntu = Ok l ∧ ∀ s, s ∈ l ↔ accounted ubuntu s.
Proof.
  intros Hnd Hin Hact. unfold stable_series_of.
  set (act := filter (λ s : Series, active s) (series ubuntu)).
  assert (Hc : current_series ubuntu ∈ act).
  { apply list_elem_of_filter. split; [by rewrite Hact|done]. }
  destruct (list_remove_Ok _ _ Hc) as [l Hl]. exists l. split; [done|].
  intros s. rewrite (elem_of_list_remove _ _ _ (NoDup_filter _ _ Hnd) Hl s).
  unfold act, accounted. rewrite list_elem_of_filter, Is_true_true. naive_solver.
Qed.

(** C8: when the current series is one of the (pairwise distinct) active
    series, [sru_queue_count] and [sru_ages] both return, and the keys of
    each result are exactly the names of the active series other than the
    current one. *)
Theorem C8_current_series_excluded (ubuntu : Distribution) (clock : nat → Z) :
  NoDup (series ubuntu) →
  current_series ubuntu ∈ series ubuntu →
  active (current_series ubuntu) = true →
  ∃ queues ages,
    sru_queue_count ubuntu = Ok queues ∧
    sru_ages clock ubuntu = Ok ages ∧
    ∀ k : string,
      (k ∈ keys queues ↔ ∃ s, accounted ubuntu s ∧ name s = k) ∧
      (k ∈ keys ages ↔ ∃ s, accounted ubuntu s ∧ name s = k).
Proof.
  intros Hnd Hin Hact.
  destruct (stable_series_of_spec ubuntu Hnd Hin Hact) as (l & Hl & Hacc).
  unfold sru_queue_count, sru_ages. rewrite Hl. simpl.
  eexists _, _. split; [done|]. split; [done|]. intros k.
  rewrite elem_of_keys_fold_set, elem_of_keys_sru_ages_loop.
  split; (split; [intros [Hk|(s & Hs & <-)]; [by apply elem_of_nil in Hk|]
                 |intros (s & Hs & <-); right]);
    exists s; split; try done; by apply Hacc.
Qed.

Lemma C8_current_series_excluded_witness :
  ∃ queues ages,
    sru_queue_count ubuntu_ABC = Ok queues ∧
    sru_ages (λ _, 0) ubuntu_ABC = Ok ages ∧
    ∀ k : string,
      (k ∈ keys queues ↔ ∃ s, accounted ubuntu_ABC s ∧ name s = k) ∧
      (k ∈ keys ages ↔ ∃ s, accounted ubuntu_ABC s ∧ name s = k).
Proof.
  apply (C8_current_series_excluded ubuntu_ABC (λ _, 0)).
  - refine (bool_decide_unpack _ _). vm_compute. exact I.
  - refine (bool_decide_unpack _ _). vm_compute. exact I.
  - reflexivity.
Defined.

(** The example of the specification: active series A, B, C with C current
    give the keys A and B. *)
Example keys_of_ABC :
  keys <$> sru_queue_count ubuntu_ABC = Ok ["A"; "B"] ∧
  keys <$> sru_ages (λ _, 0) ubuntu_ABC = Ok ["A"; "B"].
Proof. split; reflexivity. Qed.

(** When the current series is not among the active ones, [remove] raises. *)
Lemma stable_series_of_inactive_current (ubuntu : Distribution) :
  current_series ubuntu ∉ filter (λ s : Series, active s) (series ubuntu) →
  sru_queue_count ubuntu = Raise ValueError ∧
  ∀ clock, sru_ages clock ubuntu = Raise ValueError.
Proof.
  intros Hnin. unfold sru_queue_count, sru_ages, stable_series_of.
  by rewrite (list_remove_Raise _ _ Hnin).
Qed.

(** ** Age statistics *)

Lemma fold_left_max_comm (l : list Z) (x y : Z) :
  fold_left Z.max l (Z.max x y) = Z.max x (fold_left Z.max l y).
Proof.
  revert y. induction l as [|a l IH]; intros y; simpl; [done|].
  by rewrite <- Z.max_assoc, IH.
Qed.

Lemma fold_left_max_zero (ages : list Z) :
  fold_left Z.max ages 0 = Z.max 0 (max_age ages).
Proof.
  destruct ages as [|a rest]; simpl; [done|]. apply fold_left_max_comm.
Qed.

(** The loop invariant of the scan over the uploads of one series. *)
Lemma fold_age_step (ages : list Z) (oldest backlog_age backlog_count : Z) :
  fold_left age_step ages (oldest, backlog_age, backlog_count) =
  (fold_left Z.max ages oldest,
   backlog_age + sum_Z ((λ a, a - 10) <$> backlogged ages),
   backlog_count + Z.of_nat (length (backlogged ages))).
Proof.
  revert oldest backlog_age backlog_count.
  induction ages as [|a ages IH]; intros o b c.
  - simpl. apply (f_equal2 pair); [apply (f_equal2 pair)|]; lia.
  - change (fold_left age_step (a :: ages) (o, b, c))
      with (fold_left age_step ages (age_step (o, b, c) a)).
    unfold age_step, backlogged. rewrite filter_cons.
    assert (Ho : (if decide (a > o) then a else o) = Z.max o a)
      by (destruct (decide (a > o)); lia).
    rewrite Ho. fold (backlogged ages).
    destruct (decide (a > 10)); rewrite IH; simpl;
      (apply (f_equal2 pair); [apply (f_equal2 pair)|]);
      unfold sum_Z; simpl; unfold fmap; lia.
Qed.

Lemma age_stats_spec (ages : list Z) :
  age_stats ages =
  {| oldest_age_in_days := Z.max 0 (max_age ages);
     ten_day_backlog_count := Z.of_nat (length (backlogged ages));
     ten_day_backlog_age := sum_Z ((λ a, a - 10) <$> backlogged ages) |}.
Proof.
  unfold age_stats. rewrite fold_age_step, fold_left_max_zero. by f_equal.
Qed.

(** C3, as the code has it: for every series and every reading of the clock,
    with [a1..an] the ages of the matching uploads, the oldest age is the
    largest of 0 and the [ai], the backlog count is the number of [ai] above
    10, and the backlog age is the sum of [ai - 10] over exactly those; with
    no matching upload the three are 0. *)
Theorem C3_age_statistics (today : Z) (s : Series) :
  let ages := ages_of today s in
  let stats := series_age_stats today s in
  oldest_age_in_days stats = Z.max 0 (max_age ages) ∧
  ten_day_backlog_count stats = Z.of_nat (length (backlogged ages)) ∧
  ten_day_backlog_age stats = sum_Z ((λ a, a - 10) <$> backlogged ages) ∧
  age_stats [] = {| oldest_age_in_days := 0;
                    ten_day_backlog_count := 0;
                    ten_day_backlog_age := 0 |}.
Proof.
  simpl. unfold series_age_stats. fold (ages_of today s).
  rewrite age_stats_spec. simpl. done.
Qed.

(** C3 as stated fails on the oldest age: an upload stamped after the
    reading of the clock has a negative age, the largest age is then
    negative, and the code reports 0. *)
Lemma C3_oldest_is_not_max_counterexample :
  ages_of 0 series_ahead = [-1] ∧
  ¬ (oldest_age_in_days (series_age_stats 0 series_ahead)
     = max_age (ages_of 0 series_ahead)).
Proof. split; [reflexivity|]. vm_compute. discriminate. Qed.

(** When some age is non-negative the oldest age is the largest one. *)
Lemma oldest_is_max_when_nonnegative (ages : list Z) (a : Z) :
  a ∈ ages → 0 ≤ a → oldest_age_in_days (age_stats ages) = max_age ages.
Proof.
  intros Hin Ha. rewrite age_stats_spec. simpl.
  enough (a ≤ max_age ages) by lia. clear Ha.
  destruct ages as [|b rest]; [by apply elem_of_nil in Hin|]. simpl.
  revert b Hin. induction rest as [|c rest IH]; intros b Hin; simpl.
  - apply list_elem_of_singleton in Hin. lia.
  - rewrite fold_left_max_comm.
    apply elem_of_cons in Hin as [->|Hin]; [lia|].
    specialize (IH c Hin). lia.
Qed.

(** The example of the specification. *)
Example age_stats_3_12_25 :
  age_stats [3; 12; 25] =
  {| oldest_age_in_days := 25; ten_day_backlog_count := 2;
     ten_day_backlog_age := 17 |}.
Proof. reflexivity. Qed.

(** ** Strings and tags *)

Lemma append_cons (c : ascii) (s t : string) :
  String c s +:+ t = String c (s +:+ t).
Proof. reflexivity. Qed.

Lemma append_nil (t : string) : "" +:+ t = t.
Proof. reflexivity. Qed.

Lemma prefix_spec (s1 s2 : string) :
  String.prefix s1 s2 = true ↔ ∃ post, s2 = s1 +:+ post.
Proof.
  revert s2. induction s1 as [|a s1 IH]; intros [|b s2]; simpl.
  - split; [by exists ""|done].
  - split; [by exists (String b s2)|done].
  - split; [done|by intros [? ?]].
  - destruct (ascii_dec a b) as [->|Hne].
    + rewrite IH. split; intros [post Hp]; exists post;
        rewrite append_cons in *; congruence.
    + split; [done|]. intros [post Hp]. rewrite append_cons in Hp. congruence.
Qed.

(** [str_in] is the substring test. *)
Lemma str_in_spec (needle hay : string) :
  str_in needle hay = true ↔ ∃ pre post, hay = pre +:+ needle +:+ post.
Proof.
  induction hay as [|c hay IH].
  - change (str_in needle "") with (String.prefix needle "" || false).
    rewrite orb_false_r, prefix_spec. split.
    + intros [post Hp]. by exists "", post.
    + intros (pre & post & Hp). destruct pre as [|c pre]; [by exists post|].
      by rewrite append_cons in Hp.
  - change (str_in needle (String c hay))
      with (String.prefix needle (String c hay) || str_in needle hay).
    rewrite orb_true_iff, prefix_spec, IH. split.
    + intros [[post Hp]|(pre & post & Hp)].
      * by exists "", post.
      * exists (String c pre), post. by rewrite append_cons, Hp.
    + intros (pre & post & Hp). destruct pre as [|c' pre].
      * left. by exists post.
      * right. exists pre, post. rewrite append_cons in Hp. congruence.
Qed.

Lemma elem_of_findAll (nm : string) (n x : node) :
  x ∈ findAll nm n → ∃ a c, x = Tag nm a c.
Proof.
  unfold findAll. intros [Htag _]%list_elem_of_filter.
  destruct x as [s|t a c]; simpl in Htag; [done|].
  apply bool_decide_unpack in Htag as ->. by eexists _, _.
Qed.

(** ** Classification of a row *)

Lemma list_index_Some {A} (l : list A) (i : nat) (x : A) :
  l !! i = Some x → list_index l i = Ok x.
Proof. unfold list_index. by intros ->. Qed.

Lemma list_index_Ok {A} (l : list A) (i : nat) (x : A) :
  list_index l i = Ok x → l !! i = Some x.
Proof. unfold list_index. destruct (l !! i); congruence. Qed.

Lemma list_index_short {A} (l : list A) (i : nat) :
  (length l ≤ i)%nat → list_index l i = Raise IndexError.
Proof. unfold list_index. intros Hle. by rewrite lookup_ge_None_2. Qed.

(** The row loop past its first test. *)
Lemma row_ready_cells (tag c0 : node) :
  findAll "td" tag !! 0%nat = Some c0 →
  row_ready tag =
    if is_failure (text c0) then Ok false else
    c5 ← list_index (findAll "td" tag) 5;
    days ← py_int (tag_string c5);
    if decide (days >= 7) then
      c4 ← list_index (findAll "td" tag) 4;
      all_verified (findAll "a" c4)
    else Ok false.
Proof.
  intros H0. unfold row_ready.
  destruct (decide (length (findAll "td" tag) = 0%nat)) as [Hlen|_].
  - apply nil_length_inv in Hlen. by rewrite Hlen in H0.
  - by rewrite (list_index_Some _ _ _ H0).
Qed.

Lemma row_ready_eligible (tag c0 c4 c5 : node) (days : Z) :
  findAll "td" tag !! 0%nat = Some c0 →
  is_failure (text c0) = false →
  findAll "td" tag !! 4%nat = Some c4 →
  findAll "td" tag !! 5%nat = Some c5 →
  py_int (tag_string c5) = Ok days →
  row_ready tag =
    if decide (days >= 7) then all_verified (findAll "a" c4) else Ok false.
Proof.
  intros H0 Hf H4 H5 Hd. rewrite (row_ready_cells _ _ H0), Hf.
  rewrite (list_index_Some _ _ _ H5). simpl. rewrite Hd. simpl.
  destruct (decide (days >= 7)); [|done].
  by rewrite (list_index_Some _ _ _ H4).
Qed.

Lemma all_verified_true (bugs : list node) :
  all_verified bugs = Ok true ↔ Forall verified_link bugs.
Proof.
  induction bugs as [|bug bugs IH]; simpl; [by split|].
  rewrite Forall_cons, <- IH. unfold verified_link.
  destruct (getitem bug "class") as [cls|e]; simpl.
  - destruct (attr_contains "verified" cls) eqn:Hc; simpl.
    + split; [intros ?; split; [by exists cls|done]|by intros [_ ?]].
    + split; [done|]. intros [(cls' & [= <-] & Hc') _]. congruence.
  - split; [done|]. by intros [(cls' & ? & _) _].
Qed.

(** C6: a row with data cells whose first cell's text contains one of
    "Failed", "Dependency wait", "Cancelled" or "Regression in autopkgtest"
    does not increment the count, whatever its other cells hold. *)
Theorem C6_failure_rows_excluded (tag c0 : node) :
  findAll "td" tag !! 0%nat = Some c0 →
  str_in "Failed" (text c0) ∨ str_in "Dependency wait" (text c0) ∨
  str_in "Cancelled" (text c0) ∨ str_in "Regression in autopkgtest" (text c0) →
  row_ready tag = Ok false.
Proof.
  intros H0 Hmark. rewrite (row_ready_cells _ _ H0).
  assert (is_failure (text c0) = true) as ->; [|done].
  unfold is_failure. rewrite !orb_true_iff.
  destruct Hmark as [H|[H|[H|H]]]; apply Is_true_true in H; tauto.
Qed.

Lemma C6_failure_rows_excluded_witness :
  row_ready (Tag "tr" ∅ [td [NavigableString "Cancelled by uploader"];
                         td [NavigableString "not a number"]]) = Ok false.
Proof.
  apply (C6_failure_rows_excluded _ (td [NavigableString "Cancelled by uploader"])).
  - reflexivity.
  - right. right. left. vm_compute. exact I.
Defined.

(** C5: a row increments the count only if its sixth data cell reads as an
    integer that is at least 7; for a row whose first cell shows no failure
    a value below 7 (6 for one) excludes it and a value from 7 on leaves the
    decision to the bug links.  The bound differs from the one of the age
    statistics: a value of 7 to 10 is eligible here and not late there. *)
Theorem C5_soak_threshold (tag : node) :
  (row_ready tag = Ok true →
   ∃ c5 days, findAll "td" tag !! 5%nat = Some c5 ∧
              py_int (tag_string c5) = Ok days ∧ 7 ≤ days) ∧
  (∀ c0 c4 c5 days,
     findAll "td" tag !! 0%nat = Some c0 →
     is_failure (text c0) = false →
     findAll "td" tag !! 4%nat = Some c4 →
     findAll "td" tag !! 5%nat = Some c5 →
     py_int (tag_string c5) = Ok days →
     (days < 7 → row_ready tag = Ok false) ∧
     (7 ≤ days → row_ready tag = all_verified (findAll "a" c4)) ∧
     (7 ≤ days ≤ 10 → ten_day_backlog_count (age_stats [days]) = 0)).
Proof.
  split.
  - unfold row_ready.
    destruct (decide (length (findAll "td" tag) = 0%nat)); [done|].
    destruct (list_index (findAll "td" tag) 0) as [c0|]; simpl; [|done].
    destruct (is_failure (text c0)); [done|].
    destruct (list_index (findAll "td" tag) 5) as [c5|] eqn:H5; simpl; [|done].
    apply list_index_Ok in H5.
    destruct (py_int (tag_string c5)) as [days|] eqn:Hd; simpl; [|done].
    destruct (decide (days >= 7)); [|done].
    intros _. exists c5, days. split; [done|]. split; [done|lia].
  - intros c0 c4 c5 days H0 Hf H4 H5 Hd.
    rewrite (row_ready_eligible _ _ _ _ _ H0 Hf H4 H5 Hd).
    split; [|split].
    + intros Hlt. by rewrite decide_False by lia.
    + intros Hge. by rewrite decide_True by lia.
    + intros [Hge Hle]. rewrite age_stats_spec. simpl.
      unfold backlogged. rewrite filter_cons, decide_False by lia. done.
Qed.

Lemma C5_soak_threshold_witness :
  ∃ c5 days,
    findAll "td" (report_row "pkg" "7" [bug_link ["verified"]]) !! 5%nat = Some c5 ∧
    py_int (tag_string c5) = Ok days ∧ 7 ≤ days.
Proof.
  apply (proj1 (C5_soak_threshold (report_row "pkg" "7" [bug_link ["verified"]]))).
  vm_compute. reflexivity.
Defined.

(** The boundary: 6 days is excluded, 7 days is counted. *)
Example row_with_6_days : row_ready (report_row "pkg" "6" []) = Ok false.
Proof. vm_compute. reflexivity. Qed.

Example row_with_7_days : row_ready (report_row "pkg" "7" []) = Ok true.
Proof. vm_compute. reflexivity. Qed.

(** C7: a row that is otherwise eligible (no failure in its first cell, at
    least 7 days in its sixth) increments the count exactly when every bug
    link of its fifth cell carries "verified"; one link without it keeps the
    row out whatever the others carry, and a row with no bug link counts. *)
Theorem C7_every_bug_verified (tag c0 c4 c5 : node) (days : Z) :
  findAll "td" tag !! 0%nat = Some c0 →
  is_failure (text c0) = false →
  findAll "td" tag !! 4%nat = Some c4 →
  findAll "td" tag !! 5%nat = Some c5 →
  py_int (tag_string c5) = Ok days →
  7 ≤ days →
  (row_ready tag = Ok true ↔ Forall verified_link (findAll "a" c4)) ∧
  (∀ bug, bug ∈ findAll "a" c4 → ¬ verified_link bug → row_ready tag ≠ Ok true) ∧
  (findAll "a" c4 = [] → row_ready tag = Ok true).
Proof.
  intros H0 Hf H4 H5 Hd Hge.
  rewrite (row_ready_eligible _ _ _ _ _ H0 Hf H4 H5 Hd).
  rewrite decide_True by lia. split; [apply all_verified_true|]. split.
  - intros bug Hin Hnv Hall. apply all_verified_true in Hall.
    rewrite Forall_forall in Hall. by apply Hnv, Hall.
  - by intros ->.
Qed.

Lemma C7_every_bug_verified_witness :
  let tag := report_row "pkg" "9" [bug_link ["verified"]; bug_link ["kernel-bug"]] in
  let c4 := td [bug_link ["verified"]; bug_link ["kernel-bug"]] in
  (row_ready tag = Ok true ↔ Forall verified_link (findAll "a" c4)) ∧
  (∀ bug, bug ∈ findAll "a" c4 → ¬ verified_link bug → row_ready tag ≠ Ok true) ∧
  (findAll "a" c4 = [] → row_ready tag = Ok true).
Proof.
  apply (C7_every_bug_verified _ (td [NavigableString "pkg"]) _
           (td [NavigableString "9"]) 9).
  - reflexivity.
  - vm_compute. reflexivity.
  - reflexivity.
  - reflexivity.
  - vm_compute. reflexivity.
  - lia.
Defined.

(** One of two links lacks "verified": the row is not counted. *)
Example row_with_one_unverified_link :
  row_ready (report_row "pkg" "9" [bug_link ["verified"]; bug_link ["kernel-bug"]])
  = Ok false.
Proof. vm_compute. reflexivity. Qed.

(** ** The row loop of one table *)

(** Scanning the rows of a table adds the number of ready rows to the entry
    of its release. *)
Lemma scan_rows_count (release : option node) (trs : list node)
    (ready_srus : ready_dict) (n : Z) :
  dict_get release ready_srus = Some n →
  scan_rows release trs ready_srus =
    c ← count_ready trs; Ok (dict_set release (n + c) ready_srus).
Proof.
  revert ready_srus n. induction trs as [|tag rest IH]; intros d n Hget; simpl.
  - by rewrite Z.add_0_r, (dict_set_get_id _ _ _ Hget).
  - destruct (row_ready tag) as [[|]|e]; simpl; [| |done].
    + unfold dict_incr. rewrite Hget. simpl.
      rewrite (IH _ (n + 1) (dict_get_set_eq _ _ _)).
      destruct (count_ready rest) as [c|e]; simpl; [|done].
      rewrite dict_set_set. do 2 f_equal. lia.
    + rewrite (IH _ n Hget).
      destruct (count_ready rest) as [c|e]; simpl; [|done].
      do 2 f_equal.
Qed.

Lemma scan_rows_raises (release : option node) (trs : list node)
    (ready_srus : ready_dict) (tag : node) :
  tag ∈ trs → raises (row_ready tag) → raises (scan_rows release trs ready_srus).
Proof.
  intros Hin [e He]. revert ready_srus.
  induction trs as [|x rest IH]; intros d; [by apply elem_of_nil in Hin|].
  simpl. apply elem_of_cons in Hin as [<-|Hin].
  - rewrite He. by exists e.
  - destruct (row_ready x) as [ready|e']; simpl; [|by exists e'].
    destruct (if ready then dict_incr release d else Ok d) as [d'|e']; simpl;
      [by apply IH|by exists e'].
Qed.

(** ** The table loop *)

(** The step taken for a table that is not skipped: its entry is set to 0,
    then its rows are scanned. *)
Lemma scan_tables_counted doc i table rest ready_srus release :
  counted_as doc release (i, table) →
  scan_tables doc ((i, table) :: rest) ready_srus =
    ready_srus' ← scan_rows release (findAll "tr" table)
                    (dict_set release 0 ready_srus);
    scan_tables doc rest ready_srus'.
Proof.
  intros (Hid & Hrel & Hne). simpl in *. rewrite Hid, Hrel. simpl.
  by rewrite decide_False.
Qed.

Lemma scan_tables_skipped doc i table rest ready_srus :
  ¬ scanned doc (i, table) →
  raises (release_of doc i) ∨
  scan_tables doc ((i, table) :: rest) ready_srus = scan_tables doc rest ready_srus.
Proof.
  unfold scanned. simpl. intros Hns.
  destruct (has_attr "id" table) eqn:Hid; simpl; [|by right].
  destruct (release_of doc i) as [release|e] eqn:Hrel; [|left; by exists e].
  right. simpl. destruct (decide (release = _)) as [->|Hne]; [done|].
  destruct Hns. split; [done|congruence].
Qed.

Lemma release_of_pos (doc : list node) (i : nat) :
  (1 ≤ i)%nat → ∃ release, release_of doc i = Ok release.
Proof.
  destruct i as [|[|j]]; [lia| |]; intros _; by eexists.
Qed.

(** Positions handed to the loop are positions of descendants. *)
Lemma elem_of_tables_of (soup : node) (i : nat) (table : node) :
  (i, table) ∈ tables_of soup ↔
  (1 ≤ i)%nat ∧ elements soup !! i = Some table ∧ is_tag "table" table = true.
Proof.
  unfold tables_of. rewrite list_elem_of_filter. simpl.
  assert (Hel : elements soup = soup :: descendants soup) by by destruct soup.
  rewrite Hel, Is_true_true, list_elem_of_lookup.
  split.
  - intros (Htag & k & Hk).
    apply lookup_zip_with_Some in Hk as (x & y & [= -> ->] & Hx & Hy).
    apply lookup_seq in Hx as [-> Hlt]. split; [lia|]. by split.
  - intros (Hpos & Hi & Htag). split; [done|].
    destruct i as [|k]; [lia|]. simpl in Hi. exists k.
    apply lookup_zip_with_Some. exists (S k), table. split; [done|].
    split; [|done]. apply lookup_seq. split; [lia|].
    by apply lookup_lt_Some in Hi.
Qed.

(** Tables without an [id], and tables whose release is the summary
    heading, leave the mapping as it is. *)
Lemma scan_tables_filter (doc : list node) (tables : list (nat * node))
    (ready_srus : ready_dict) :
  (∀ p, p ∈ tables → (1 ≤ p.1)%nat) →
  scan_tables doc tables ready_srus =
  scan_tables doc (filter (scanned doc) tables) ready_srus.
Proof.
  revert ready_srus. induction tables as [|[i table] rest IH]; intros d Hpos;
    [done|].
  assert (Hrest : ∀ p, p ∈ rest → (1 ≤ p.1)%nat)
    by (intros p Hp; apply Hpos; by right).
  rewrite filter_cons. destruct (decide (scanned doc (i, table))) as [Hs|Hns].
  - simpl. destruct (has_attr "id" table); simpl; [|by apply IH].
    destruct (release_of doc i) as [release|e]; simpl; [|done].
    destruct (decide (release = _)); [by apply IH|].
    destruct (scan_rows _ _ _) as [d'|e]; simpl; [by apply IH|done].
  - destruct (scan_tables_skipped doc i table rest d Hns) as [[e He]|Heq];
      [|rewrite Heq; by apply IH].
    destruct (release_of_pos doc i) as [r Hr]; [|congruence].
    apply (Hpos (i, table)). by left.
Qed.

(** What the table loop leaves under each key: the count of the last table
    counted under that key, or what was there before. *)
Lemma scan_tables_get (doc : list node) (tables : list (nat * node))
    (ready_srus ready_srus' : ready_dict) (release : option node) :
  scan_tables doc tables ready_srus = Ok ready_srus' →
  match last (release_tables doc tables release) with
  | Some p => ∃ c, count_ready (findAll "tr" p.2) = Ok c ∧
                   dict_get release ready_srus' = Some c
  | None => dict_get release ready_srus' = dict_get release ready_srus
  end.
Proof.
  revert ready_srus. induction tables as [|[i table] rest IH]; intros d Hscan.
  - simpl in *. by injection Hscan as <-.
  - unfold release_tables in *. rewrite filter_cons.
    simpl in Hscan.
    destruct (has_attr "id" table) eqn:Hid; simpl in Hscan.
    2:{ specialize (IH _ Hscan). rewrite decide_False by (intros (? & _); simpl in *; congruence).
        done. }
    destruct (release_of doc i) as [r|e] eqn:Hrel; simpl in Hscan; [|done].
    destruct (decide (r = Some (NavigableString summary_heading))) as [->|Hne].
    { specialize (IH _ Hscan).
      rewrite decide_False; [done|].
      intros (_ & Hr & Hn). simpl in *. congruence. }
    rewrite (scan_rows_count r _ _ 0 (dict_get_set_eq _ _ _)) in Hscan.
    destruct (count_ready (findAll "tr" table)) as [c|e] eqn:Hc;
      simpl in Hscan; [|done].
    rewrite dict_set_set, Z.add_0_l in Hscan.
    specialize (IH _ Hscan).
    destruct (decide (counted_as doc release (i, table))) as [(_ & Hr & _)|Hnc].
    + simpl in Hr. assert (release = r) as -> by congruence.
      rewrite last_cons.
      destruct (last (filter (counted_as doc r) rest)) as [p|]; [done|].
      exists c. split; [done|]. by rewrite IH, dict_get_set_eq.
    + destruct (last (filter (counted_as doc release) rest)) as [p|]; [done|].
      rewrite IH. apply dict_get_set_ne. intros ->.
      apply Hnc. by split.
Qed.

Lemma elem_of_keys_scan_tables (soup : node) (ready_srus : ready_dict)
    (k : option node) :
  ready_count_of_soup soup = Ok ready_srus →
  k ∈ keys ready_srus ↔
  ∃ i table, (i, table) ∈ tables_of soup ∧ counted_as (elements soup) k (i, table).
Proof.
  intros Hscan. rewrite elem_of_keys_get.
  pose proof (scan_tables_get _ _ _ _ k Hscan) as Hget.
  destruct (last (release_tables (elements soup) (tables_of soup) k))
    as [[i table]|] eqn:Hlast.
  - destruct Hget as (c & _ & ->). split; [intros _|by eexists].
    exists i, table. apply and_comm.
    apply (list_elem_of_filter (counted_as (elements soup) k)).
    apply last_Some in Hlast as [l' Hl']. unfold release_tables in Hl'.
    rewrite Hl'. apply elem_of_app. right. by left.
  - rewrite Hget. simpl. split; [by intros [? ?]|].
    intros (i & table & Hin & Hc). apply last_None in Hlast.
    assert (Hel : (i, table) ∈ release_tables (elements soup) (tables_of soup) k)
      by by apply list_elem_of_filter.
    rewrite Hlast in Hel. by apply elem_of_nil in Hel.
Qed.

(** C10: a table that is not skipped has its entry set to 0 before its rows
    are scanned; so, when the scan of the report returns, its release name
    is a key of the result, and the value under that key is the number of
    ready rows of the last table counted under it, whatever the earlier
    tables of the same name held. *)
Theorem C10_entry_reset_per_table (soup : node) (ready_srus : ready_dict)
    (i : nat) (table : node) (release : option node) :
  ready_count_of_soup soup = Ok ready_srus →
  (i, table) ∈ tables_of soup →
  counted_as (elements soup) release (i, table) →
  (∀ rest d,
     scan_tables (elements soup) ((i, table) :: rest) d =
       d' ← scan_rows release (findAll "tr" table) (dict_set release 0 d);
       scan_tables (elements soup) rest d') ∧
  release ∈ keys ready_srus ∧
  ∃ p c,
    last (release_tables (elements soup) (tables_of soup) release) = Some p ∧
    count_ready (findAll "tr" p.2) = Ok c ∧
    dict_get release ready_srus = Some c.
Proof.
  intros Hscan Hin Hc. split; [|split].
  - intros rest d. by apply scan_tables_counted.
  - apply (elem_of_keys_scan_tables _ _ _ Hscan). by exists i, table.
  - pose proof (scan_tables_get _ _ _ _ release Hscan) as Hget.
    destruct (last (release_tables (elements soup) (tables_of soup) release))
      as [p|] eqn:Hlast.
    + destruct Hget as (c & Hcount & Hget). by exists p, c.
    + apply last_None in Hlast.
      assert (Hel : (i, table) ∈ release_tables (elements soup) (tables_of soup) release)
        by by apply list_elem_of_filter.
      rewrite Hlast in Hel. by apply elem_of_nil in Hel.
Qed.

Lemma C10_entry_reset_per_table_witness :
  let release := Some (NavigableString "Xenial") in
  let table := report_table "xenial" [report_row "pkg" "9" []; report_row "pkg" "8" []] in
  (∀ rest d,
     scan_tables (elements soup_twice) ((6%nat, table) :: rest) d =
       d' ← scan_rows release (findAll "tr" table) (dict_set release 0 d);
       scan_tables (elements soup_twice) rest d') ∧
  release ∈ keys [(release, 0)] ∧
  ∃ p c,
    last (release_tables (elements soup_twice) (tables_of soup_twice) release) = Some p ∧
    count_ready (findAll "tr" p.2) = Ok c ∧
    dict_get release [(release, 0)] = Some c.
Proof.
  apply (C10_entry_reset_per_table soup_twice).
  - vm_compute. reflexivity.
  - refine (bool_decide_unpack _ _). vm_compute. exact I.
  - refine (bool_decide_unpack _ _). vm_compute. exact I.
Defined.

(** Two tables named Xenial: the two ready rows of the first are dropped,
    the result holds the count of the second. *)
Example second_table_wins :
  count_ready (findAll "tr"
    (report_table "xenial" [report_row "pkg" "9" []; report_row "pkg" "8" []]))
    = Ok 2 ∧
  ready_count_of_soup soup_twice = Ok [(Some (NavigableString "Xenial"), 0)].
Proof. split; vm_compute; reflexivity. Qed.

(** C4, as the code has it: tables without an [id] leave the result as it
    is, and so do the tables with one whose release is the summary heading;
    the release of a table is the element two places before it in document
    order ([None] when there is only one); the keys of the result are the
    releases of the tables that are not skipped, and the summary heading is
    never one. *)
Theorem C4_release_of_table (soup : node) :
  let doc := elements soup in
  ready_count_of_soup soup =
    scan_tables doc (filter (scanned doc) (tables_of soup)) [] ∧
  (∀ i table, (i, table) ∈ tables_of soup →
     doc !! i = Some table ∧
     release_of doc i = Ok (match i with S (S j) => doc !! j | _ => None end)) ∧
  (∀ ready_srus, ready_count_of_soup soup = Ok ready_srus →
     (Some (NavigableString summary_heading) ∉ keys ready_srus) ∧
     (∀ k, k ∈ keys ready_srus ↔
           ∃ i table, (i, table) ∈ tables_of soup ∧ counted_as doc k (i, table))).
Proof.
  simpl. split; [|split].
  - apply scan_tables_filter. intros [i table] Hin.
    by apply elem_of_tables_of in Hin as (? & _).
  - intros i table (Hpos & Hi & _)%elem_of_tables_of. split; [done|].
    by destruct i as [|[|j]]; [lia| |].
  - intros d Hscan. split; [|intros k; by apply elem_of_keys_scan_tables].
    intros Hin. apply (elem_of_keys_scan_tables _ _ _ Hscan) in Hin
      as (i & table & _ & _ & _ & Hne). done.
Qed.

Lemma C4_release_of_table_witness :
  let d := [(Some (NavigableString "Xenial"), 1)] in
  (Some (NavigableString summary_heading) ∉ keys d) ∧
  (∀ k, k ∈ keys d ↔
        ∃ i table, (i, table) ∈ tables_of soup_report ∧
                   counted_as (elements soup_report) k (i, table)).
Proof.
  apply (proj2 (proj2 (C4_release_of_table soup_report))).
  vm_compute. reflexivity.
Defined.

(** The report's layout: the summary table is skipped, Xenial is kept. *)
Example only_xenial :
  ready_count_of_soup soup_report = Ok [(Some (NavigableString "Xenial"), 1)].
Proof. vm_compute. reflexivity. Qed.

(** C4 as stated fails.  With the heading text directly in front of a table
    that has an [id], the text node immediately preceding the table is the
    summary heading, yet the table is scanned and counted, under the key of
    the [body] tag.  In the report's own layout the text node immediately
    preceding the Xenial table is the line break, not the release name. *)
Lemma C4_preceding_text_counterexample :
  (∃ table, (4%nat, table) ∈ tables_of soup_adjacent ∧
            has_attr "id" table = true ∧
            preceding_text (elements soup_adjacent) 4 = Some summary_heading ∧
            ready_count_of_soup soup_adjacent = Ok [(elements soup_adjacent !! 2%nat, 1)]) ∧
  (∃ table, (19%nat, table) ∈ tables_of soup_report ∧
            has_attr "id" table = true ∧
            preceding_text (elements soup_report) 19 = Some newline ∧
            ready_count_of_soup soup_report = Ok [(Some (NavigableString "Xenial"), 1)]).
Proof.
  split.
  - exists (report_table "queues" [report_row "pkg" "9" []]).
    split; [refine (bool_decide_unpack _ _); vm_compute; exact I|].
    split; [reflexivity|]. split; vm_compute; reflexivity.
  - eexists. split; [|split; [|split]];
      [| |vm_compute; reflexivity|vm_compute; reflexivity].
    + apply elem_of_tables_of. split; [lia|]. split; [reflexivity|reflexivity].
    + reflexivity.
Qed.

(** C2 as stated fails: a row with a single data cell, a row whose sixth
    cell is not a number, and a bug link without a [class] attribute each
    make the scan of the report raise. *)
Lemma C2_malformed_rows_raise_counterexample :
  ready_count_of_soup soup_short_row = Raise IndexError ∧
  ready_count_of_soup soup_bad_days = Raise ValueError ∧
  ready_count_of_soup soup_unclassified_bug = Raise KeyError.
Proof. repeat split; vm_compute; reflexivity. Qed.

Lemma all_verified_app (verified rest : list node) :
  Forall verified_link verified →
  all_verified (verified ++ rest) = all_verified rest.
Proof.
  induction 1 as [|bug verified (cls & Hcls & Hv) _ IH]; [done|].
  simpl. rewrite Hcls. simpl. by rewrite Hv.
Qed.

Lemma scan_tables_raises (doc : list node) (tables : list (nat * node))
    (ready_srus : ready_dict) i table release tag :
  (i, table) ∈ tables →
  counted_as doc release (i, table) →
  tag ∈ findAll "tr" table →
  raises (row_ready tag) →
  raises (scan_tables doc tables ready_srus).
Proof.
  intros Hin Hc Htag Hraise. revert ready_srus.
  induction tables as [|[j t] rest IH]; intros d; [by apply elem_of_nil in Hin|].
  apply elem_of_cons in Hin as [[= <- <-]|Hin].
  - rewrite (scan_tables_counted _ _ _ _ _ _ Hc).
    destruct (scan_rows_raises release _ (dict_set release 0 d) _ Htag Hraise)
      as [e ->]. by exists e.
  - simpl. destruct (has_attr "id" t); simpl; [|by apply IH].
    destruct (release_of doc j) as [r|e]; simpl; [|by exists e].
    destruct (decide (r = _)); [by apply IH|].
    destruct (scan_rows _ _ _) as [d'|e]; simpl; [by apply IH|by exists e].
Qed.

(** C2, as the code has it: a row without data cells, or whose first cell
    shows a failure, is passed over without an error whatever else it
    holds.  Any other row with fewer than six data cells raises
    [IndexError]; with a sixth cell that has no single string, [TypeError];
    with one that is not an integer, [ValueError]; and, from 7 days on, with
    a bug link without a [class] attribute met before any unverified link,
    [KeyError].  An exception raised by a row of a table that is not
    skipped ends the scan of the report: no mapping is returned. *)
Theorem C2_unexpected_rows (tag : node) :
  (findAll "td" tag = [] → row_ready tag = Ok false) ∧
  (∀ c0, findAll "td" tag !! 0%nat = Some c0 → is_failure (text c0) = true →
     row_ready tag = Ok false) ∧
  (∀ c0, findAll "td" tag !! 0%nat = Some c0 → is_failure (text c0) = false →
     ((length (findAll "td" tag) < 6)%nat → row_ready tag = Raise IndexError) ∧
     (∀ c5, findAll "td" tag !! 5%nat = Some c5 →
        (tag_string c5 = None → row_ready tag = Raise TypeError) ∧
        (∀ s, tag_string c5 = Some s → int_of_string s = Raise ValueError →
           row_ready tag = Raise ValueError) ∧
        (∀ days c4 verified bug rest,
           py_int (tag_string c5) = Ok days → 7 ≤ days →
           findAll "td" tag !! 4%nat = Some c4 →
           findAll "a" c4 = verified ++ bug :: rest →
           Forall verified_link verified →
           has_attr "class" bug = false →
           row_ready tag = Raise KeyError))) ∧
  (∀ soup i table release,
     (i, table) ∈ tables_of soup →
     counted_as (elements soup) release (i, table) →
     tag ∈ findAll "tr" table →
     raises (row_ready tag) →
     raises (ready_count_of_soup soup)).
Proof.
  split; [|split; [|split]].
  - intros Hnil. unfold row_ready. by rewrite Hnil.
  - intros c0 H0 Hf. by rewrite (row_ready_cells _ _ H0), Hf.
  - intros c0 H0 Hf. split.
    + intros Hlen. rewrite (row_ready_cells _ _ H0), Hf.
      rewrite (list_index_short _ 5) by lia. done.
    + intros c5 H5. split; [|split].
      * intros Hs. rewrite (row_ready_cells _ _ H0), Hf.
        rewrite (list_index_Some _ _ _ H5). simpl. by rewrite Hs.
      * intros s Hs Hint. rewrite (row_ready_cells _ _ H0), Hf.
        rewrite (list_index_Some _ _ _ H5). simpl. rewrite Hs. simpl.
        by rewrite Hint.
      * intros days c4 verified bug rest Hd Hge H4 Hbugs Hver Hcls.
        rewrite (row_ready_eligible _ _ _ _ _ H0 Hf H4 H5 Hd).
        rewrite decide_True by lia.
        rewrite Hbugs, (all_verified_app _ _ Hver).
        assert (Hin : bug ∈ findAll "a" c4)
          by (rewrite Hbugs; apply elem_of_app; right; by left).
        apply elem_of_findAll in Hin as (a & c & ->). simpl in *.
        destruct (a !! "class") as [v|] eqn:Ha; [|done].
        rewrite bool_decide_eq_false in Hcls. destruct Hcls. by eexists.
  - intros soup i table release Hin Hc Htag Hraise.
    by apply (scan_tables_raises _ _ _ i table release tag).
Qed.

Lemma C2_unexpected_rows_witness :
  row_ready (Tag "tr" ∅ [td [NavigableString "pkg"]]) = Raise IndexError.
Proof.
  apply (proj1 (proj2 (proj2 (C2_unexpected_rows (Tag "tr" ∅ [td [NavigableString "pkg"]]))))
           (td [NavigableString "pkg"])).
  - reflexivity.
  - vm_compute. reflexivity.
  - change (1 < 6)%nat. lia.
Defined.

(** ** Runs of [collect] *)

Lemma print_lines_eq (lines : list string) :
  print_lines lines = Prog (Print <$> lines) (Ok ()).
Proof.
  induction lines as [|l rest IH]; [done|].
  simpl. rewrite IH. reflexivity.
Qed.

Lemma push_count_app (t1 t2 : list event) :
  push_count (t1 ++ t2) = (push_count t1 + push_count t2)%nat.
Proof. unfold push_count. by rewrite filter_app, length_app. Qed.

Lemma push_count_prints (lines : list string) : push_count (Print <$> lines) = 0%nat.
Proof. induction lines as [|l rest IH]; [done|]. exact IH. Qed.

Lemma push_count_Print (line : string) (t : list event) :
  push_count (Print line :: t) = push_count t.
Proof. reflexivity. Qed.

(** The scraper pushes nothing, and logs only when it returns [None]. *)
Lemma sru_verified_and_ready_count_cases (w : World) :
  (∃ r, sru_verified_and_ready_count w = Prog [] (Ok (Some r))) ∨
  sru_verified_and_ready_count w
    = Prog [LogError "Error parsing SRU report"] (Ok None) ∨
  (∃ e, sru_verified_and_ready_count w = Prog [] (Raise e)).
Proof.
  unfold sru_verified_and_ready_count.
  destruct (urlopen_read w) as [bytes|e];
    [|right; right; exists e; reflexivity].
  destruct (BeautifulSoup w bytes) as [soup|e] eqn:Hsoup.
  - destruct (ready_count_of_soup soup) as [r|e] eqn:Hr.
    + left. exists r. cbn. rewrite Hsoup. cbn. rewrite Hr. reflexivity.
    + right. right. exists e. cbn. rewrite Hsoup. cbn. rewrite Hr. reflexivity.
  - destruct e; try (right; right; eexists; cbn; rewrite Hsoup; reflexivity).
    right. left. cbn. rewrite Hsoup. reflexivity.
Qed.

(** A run in which the three collectors return, the scraper with a
    mapping: the console report, then the push unless in dry-run mode. *)
Lemma collect_returns (dryrun : bool) (w : World) q r a :
  sru_queue_count (ubuntu w) = Ok q →
  sru_verified_and_ready_count w = Prog [] (Ok (Some r)) →
  sru_ages (today w) (ubuntu w) = Ok a →
  ∃ registry,
    gauge_name <$> registry = gauge_families ∧
    collect dryrun w =
      if dryrun then Prog (Print <$> console_report w q a r) (Ok ())
      else Prog ((Print <$> console_report w q a r)
                 ++ [Print "Pushing data..."; PushGateway "foundations-sru" registry])
                (push2gateway w "foundations-sru" registry).
Proof.
  intros Hq Hr Ha. unfold collect. rewrite Hq, Hr, Ha.
  repeat (progress (cbn; rewrite ?print_lines_eq)).
  destruct dryrun;
    [exists ((λ n, make_gauge n "" []) <$> gauge_families)|eexists];
    (split; [|unfold console_report;
              repeat (progress (rewrite ?fmap_app, ?fmap_cons, <- ?app_assoc;
                                cbn [app negb trace outcome mret prog_ret]));
              rewrite ?app_nil_r; reflexivity]);
    reflexivity.
Qed.

(** A run whose report does not parse: the scraper has returned [None], the
    four families of the queue are printed, and [None.items()] raises. *)
Lemma collect_unparsed (dryrun : bool) (w : World) q a :
  sru_queue_count (ubuntu w) = Ok q →
  sru_verified_and_ready_count w
    = Prog [LogError "Error parsing SRU report"] (Ok None) →
  sru_ages (today w) (ubuntu w) = Ok a →
  collect dryrun w =
    Prog (LogError "Error parsing SRU report" :: (Print <$> console_report w q a []))
         (Raise AttributeError).
Proof.
  intros Hq Hr Ha. unfold collect. rewrite Hq, Hr, Ha.
  repeat (progress (cbn; rewrite ?print_lines_eq)).
  unfold console_report.
  repeat (progress (rewrite ?fmap_app, ?fmap_cons, <- ?app_assoc;
                    cbn [app negb trace outcome mret prog_ret]));
  rewrite ?app_nil_r; reflexivity.
Qed.

Lemma outcome_scraper_Some (w : World) (r : ready_dict) :
  outcome (sru_verified_and_ready_count w) = Ok (Some r) →
  sru_verified_and_ready_count w = Prog [] (Ok (Some r)).
Proof.
  destruct (sru_verified_and_ready_count_cases w) as [[r' ->]|[->|[e ->]]];
    simpl; congruence.
Qed.

Lemma collect_dryrun_no_push (w : World) :
  push_count (trace (collect true w)) = 0%nat.
Proof.
  destruct (sru_queue_count (ubuntu w)) as [q|e] eqn:Hq;
    [|unfold collect; by rewrite Hq].
  destruct (sru_verified_and_ready_count_cases w) as [[r Hr]|[Hr|[e Hr]]];
    [| |unfold collect; by rewrite Hq, Hr].
  - destruct (sru_ages (today w) (ubuntu w)) as [a|e] eqn:Ha;
      [|unfold collect; by rewrite Hq, Hr, Ha].
    destruct (collect_returns true w q r a Hq Hr Ha) as (_ & _ & ->).
    apply push_count_prints.
  - destruct (sru_ages (today w) (ubuntu w)) as [a|e] eqn:Ha;
      [|unfold collect; by rewrite Hq, Hr, Ha].
    rewrite (collect_unparsed true w q a Hq Hr Ha).
    apply push_count_prints.
Qed.

(** * Further properties of the collectors *)

(** ** Values and order of the per-series mappings *)

Lemma dict_set_fresh {K V} `{EqDecision K} (k : K) (v : V) (d : list (K * V)) :
  k ∉ keys d → dict_set k v d = d ++ [(k, v)].
Proof.
  unfold keys. induction d as [|[k' v'] d IH]; simpl; [done|].
  intros [Hne Hnin]%not_elem_of_cons.
  rewrite decide_False by done. by rewrite IH.
Qed.

Lemma fold_dict_set_fresh {A K V} `{EqDecision K} (f : A → K) (g : A → V)
    (l : list A) (d : list (K * V)) :
  NoDup (keys d ++ (f <$> l)) →
  fold_left (λ acc x, dict_set (f x) (g x) acc) l d
  = d ++ ((λ x, (f x, g x)) <$> l).
Proof.
  revert d. induction l as [|x l IH]; intros d Hnd; simpl.
  - by rewrite app_nil_r.
  - assert (Hx : f x ∉ keys d).
    { apply NoDup_app in Hnd as (_ & Hdis & _). intros Hin.
      apply (Hdis _ Hin). by left. }
    rewrite (dict_set_fresh _ _ _ Hx), IH.
    + by rewrite <- app_assoc.
    + unfold keys in *. rewrite fmap_app, <- app_assoc. exact Hnd.
Qed.

Lemma sru_ages_loop_fresh clock (i : nat) (l : list Series)
    (d : list (string * SeriesAgeStats)) :
  NoDup (keys d ++ (name <$> l)) →
  sru_ages_loop clock i l d
  = d ++ imap (λ j s, (name s, series_age_stats (clock (i + j)%nat) s)) l.
Proof.
  revert i d. induction l as [|x l IH]; intros i d Hnd; simpl.
  - by rewrite app_nil_r.
  - assert (Hx : name x ∉ keys d).
    { apply NoDup_app in Hnd as (_ & Hdis & _). intros Hin.
      apply (Hdis _ Hin). by left. }
    rewrite (dict_set_fresh _ _ _ Hx), IH.
    + rewrite <- app_assoc. simpl. rewrite Nat.add_0_r. do 2 f_equal.
      apply imap_ext. intros j s _. simpl. do 3 f_equal. lia.
    + unfold keys in *. rewrite fmap_app, <- app_assoc. exact Hnd.
Qed.

(** When the series left after removing the current one have pairwise
    distinct names, [sru_queue_count] returns one entry per series, in the
    order of the series, holding the number of its unapproved uploads to
    proposed. *)
Theorem sru_queue_count_entries (ubuntu : Distribution) (l : list Series) :
  stable_series_of ubuntu = Ok l →
  NoDup (name <$> l) →
  sru_queue_count ubuntu = Ok ((λ s, (name s, queue_depth s)) <$> l).
Proof.
  intros Hl Hnd. unfold sru_queue_count. rewrite Hl. simpl. f_equal.
  by rewrite (fold_dict_set_fresh name queue_depth l []).
Qed.

Lemma sru_queue_count_entries_witness :
  sru_queue_count ubuntu_ABC
  = Ok ((λ s, (name s, queue_depth s)) <$> [series_A; series_B]).
Proof.
  apply (sru_queue_count_entries ubuntu_ABC [series_A; series_B]).
  - reflexivity.
  - refine (bool_decide_unpack _ _). vm_compute. exact I.
Defined.

(** Under the same condition [sru_ages] returns one entry per series, in
    the order of the series; the statistics of the series at position [i]
    are taken against the [i]-th reading of the clock. *)
Theorem sru_ages_entries (clock : nat → Z) (ubuntu : Distribution)
    (l : list Series) :
  stable_series_of ubuntu = Ok l →
  NoDup (name <$> l) →
  sru_ages clock ubuntu
  = Ok (imap (λ i s, (name s, series_age_stats (clock i) s)) l).
Proof.
  intros Hl Hnd. unfold sru_ages. rewrite Hl. simpl. f_equal.
  by rewrite (sru_ages_loop_fresh clock 0 l []).
Qed.

Lemma sru_ages_entries_witness :
  sru_ages (λ i, Z.of_nat i * microseconds_per_day) ubuntu_ABC
  = Ok (imap (λ i s, (name s,
                      series_age_stats (Z.of_nat i * microseconds_per_day) s))
             [series_A; series_B]).
Proof.
  apply (sru_ages_entries _ ubuntu_ABC [series_A; series_B]).
  - reflexivity.
  - refine (bool_decide_unpack _ _). vm_compute. exact I.
Defined.

(** The keys of a dictionary after an assignment depend on its keys only. *)
Lemma keys_dict_set_congr {K V W} `{EqDecision K} (k : K) (v : V) (w : W)
    (d : list (K * V)) (d' : list (K * W)) :
  keys d = keys d' → keys (dict_set k v d) = keys (dict_set k w d').
Proof.
  unfold keys. revert d'. induction d as [|[k1 v1] d IH]; intros [|[k2 w2] d'];
    simpl; try done.
  intros [= <- Hd]. destruct (decide (k = k1)); simpl; f_equal; auto.
Qed.

Lemma keys_queue_ages_loop clock (i : nat) (l : list Series)
    (dq : list (string * Z)) (da : list (string * SeriesAgeStats)) :
  keys dq = keys da →
  keys (fold_left (λ acc s, dict_set (name s) (queue_depth s) acc) l dq)
  = keys (sru_ages_loop clock i l da).
Proof.
  revert i dq da. induction l as [|s l IH]; intros i dq da Hk; simpl; [done|].
  apply IH. by apply keys_dict_set_congr.
Qed.

(** Given the same listing of series, when [sru_queue_count] and [sru_ages]
    both return, their mappings have the same keys in the same order. *)
Theorem queue_and_ages_same_keys (clock : nat → Z) (ubuntu : Distribution)
    (q : list (string * Z)) (a : list (string * SeriesAgeStats)) :
  sru_queue_count ubuntu = Ok q →
  sru_ages clock ubuntu = Ok a →
  keys q = keys a.
Proof.
  unfold sru_queue_count, sru_ages.
  destruct (stable_series_of ubuntu) as [l|e]; simpl; [|done].
  intros [= <-] [= <-]. by apply (keys_queue_ages_loop clock 0 l [] []).
Qed.

Lemma queue_and_ages_same_keys_witness :
  keys [("A", 3); ("B", 0)]
  = keys [("A", age_stats [3; 12; 25]); ("B", age_stats [])].
Proof.
  apply (queue_and_ages_same_keys (λ _, 0) ubuntu_ABC).
  - vm_compute. reflexivity.
  - vm_compute. reflexivity.
Defined.

(** ** Age statistics: bounds and order *)

Lemma fold_left_max_gt (l : list Z) (x b : Z) :
  fold_left Z.max l x > b ↔ x > b ∨ ∃ a, a ∈ l ∧ a > b.
Proof.
  revert x. induction l as [|c l IH]; intros x; simpl.
  - split; [by left|]. intros [?|(a & Ha & _)]; [done|by apply elem_of_nil in Ha].
  - rewrite IH. split.
    + intros [Hm|(a & Ha & Hgt)].
      * destruct (decide (x > b)); [by left|]. right. exists c.
        split; [by left|lia].
      * right. exists a. split; [by right|done].
    + intros [Hx|(a & [->|Ha]%elem_of_cons & Hgt)]; [left; lia|left; lia|].
      right. by exists a.
Qed.

Lemma sum_late_ge_length (ages : list Z) :
  Z.of_nat (length (backlogged ages)) ≤ sum_Z ((λ a, a - 10) <$> backlogged ages).
Proof.
  unfold backlogged. induction ages as [|a ages IH]; [done|].
  rewrite filter_cons. destruct (decide (a > 10)); [|done].
  rewrite fmap_cons. unfold sum_Z in *. simpl length. simpl foldr. lia.
Qed.

(** The three statistics of a series are never negative; the backlog count
    is at most the number of uploads and at most the backlog age; and there
    is a backlog exactly when the oldest age is above ten days. *)
Theorem age_stats_bounds (ages : list Z) :
  let stats := age_stats ages in
  0 ≤ oldest_age_in_days stats ∧
  0 ≤ ten_day_backlog_count stats ≤ Z.of_nat (length ages) ∧
  ten_day_backlog_count stats ≤ ten_day_backlog_age stats ∧
  (0 < ten_day_backlog_count stats ↔ 10 < oldest_age_in_days stats).
Proof.
  simpl. rewrite age_stats_spec. simpl.
  pose proof (sum_late_ge_length ages) as Hsum.
  assert (Hlen : (length (backlogged ages) ≤ length ages)%nat)
    by apply length_filter.
  split; [lia|]. split; [lia|]. split; [done|].
  rewrite <- fold_left_max_zero.
  assert (Hgt := fold_left_max_gt ages 0 10).
  assert (Hex : (0 < length (backlogged ages))%nat ↔ ∃ a, a ∈ ages ∧ a > 10).
  { unfold backlogged. split.
    - destruct (filter _ ages) as [|a f] eqn:Hf; simpl; [lia|]. intros _.
      exists a. apply and_comm.
      apply (list_elem_of_filter (λ a, a > 10)). rewrite Hf. by left.
    - intros (a & Ha & Hlate).
      assert (Hin : a ∈ filter (λ a, a > 10) ages)
        by by apply list_elem_of_filter.
      destruct (filter _ ages); [by apply elem_of_nil in Hin|simpl; lia]. }
  split.
  - intros Hpos. apply Z.gt_lt, Hgt. right. apply Hex. lia.
  - intros Hold. apply Z.lt_gt, Hgt in Hold as [?|Hold]; [lia|].
    apply Hex in Hold. lia.
Qed.

Lemma age_step_comm (acc : Z * Z * Z) (a b : Z) :
  age_step (age_step acc a) b = age_step (age_step acc b) a.
Proof.
  destruct acc as [[o s] c]. unfold age_step.
  repeat case_decide; repeat (apply (f_equal2 pair)); lia.
Qed.

Lemma fold_age_step_Permutation (ages ages' : list Z) (acc : Z * Z * Z) :
  ages ≡ₚ ages' → fold_left age_step ages acc = fold_left age_step ages' acc.
Proof.
  intros Hp. revert acc.
  induction Hp as [|a l l' _ IH|a b l|l1 l2 l3 _ IH1 _ IH2]; intros acc; simpl.
  - done.
  - apply IH.
  - by rewrite age_step_comm.
  - by rewrite IH1.
Qed.

(** The statistics of a series do not depend on the order in which its
    uploads are listed. *)
Theorem age_stats_Permutation (ages ages' : list Z) :
  ages ≡ₚ ages' → age_stats ages = age_stats ages'.
Proof.
  intros Hp. unfold age_stats. by rewrite (fold_age_step_Permutation _ _ _ Hp).
Qed.

Lemma age_stats_Permutation_witness :
  age_stats [25; 3; 12] = age_stats [3; 12; 25].
Proof.
  apply age_stats_Permutation.
  refine (bool_decide_unpack _ _). vm_compute. exact I.
Defined.

(** The age of an upload is the number of whole days elapsed: it is above
    ten exactly from eleven full days on, and negative exactly when the
    upload is stamped after the reading of the clock. *)
Theorem age_in_days_floor (today : Z) (upload : Upload) :
  (age_in_days today upload > 10
   ↔ 11 * microseconds_per_day ≤ today - date_created upload) ∧
  (age_in_days today upload < 0 ↔ today < date_created upload) ∧
  age_in_days today upload * microseconds_per_day ≤ today - date_created upload
    < (age_in_days today upload + 1) * microseconds_per_day.
Proof.
  unfold age_in_days.
  assert (Hd : 0 < microseconds_per_day) by done.
  pose proof (Z.div_mod (today - date_created upload) microseconds_per_day) as Hdm.
  pose proof (Z.mod_pos_bound (today - date_created upload) microseconds_per_day Hd) as Hm.
  set (x := today - date_created upload) in *.
  set (q := x `div` microseconds_per_day) in *.
  set (m := x `mod` microseconds_per_day) in *.
  assert (Hx : x = microseconds_per_day * q + m) by (apply Hdm; lia).
  split; [|split]; nia.
Qed.

(** ** The scan of the report: what it returns and when *)

Lemma count_ready_bounds (trs : list node) (c : Z) :
  count_ready trs = Ok c → 0 ≤ c ≤ Z.of_nat (length trs).
Proof.
  revert c. induction trs as [|tag rest IH]; intros c; simpl.
  - intros [= <-]. lia.
  - destruct (row_ready tag) as [ready|e]; simpl; [|done].
    destruct (count_ready rest) as [n|e]; simpl; [|done].
    intros [= <-]. specialize (IH n eq_refl). destruct ready; lia.
Qed.

(** Every count of the result is the number of ready rows of one of the
    tables of the report: it lies between 0 and the number of rows of that
    table. *)
Theorem ready_counts_bounded (soup : node) (ready_srus : ready_dict)
    (release : option node) (c : Z) :
  ready_count_of_soup soup = Ok ready_srus →
  dict_get release ready_srus = Some c →
  ∃ i table,
    (i, table) ∈ tables_of soup ∧
    counted_as (elements soup) release (i, table) ∧
    count_ready (findAll "tr" table) = Ok c ∧
    0 ≤ c ≤ Z.of_nat (length (findAll "tr" table)).
Proof.
  intros Hscan Hget.
  pose proof (scan_tables_get _ _ _ _ release Hscan) as Hlast.
  destruct (last (release_tables (elements soup) (tables_of soup) release))
    as [[i table]|] eqn:Hl.
  - destruct Hlast as (c' & Hc' & Hget'). simpl in Hc'.
    assert (c' = c) as -> by congruence.
    apply last_Some in Hl as [l' Hl']. unfold release_tables in Hl'.
    assert (Hin : (i, table) ∈ filter (counted_as (elements soup) release)
                                  (tables_of soup))
      by (rewrite Hl'; apply elem_of_app; right; by left).
    apply list_elem_of_filter in Hin as [Hc Hin].
    exists i, table. split; [done|]. split; [done|]. split; [done|].
    by apply count_ready_bounds.
  - rewrite Hlast in Hget. done.
Qed.

Lemma ready_counts_bounded_witness :
  ∃ i table,
    (i, table) ∈ tables_of soup_report ∧
    counted_as (elements soup_report) (Some (NavigableString "Xenial")) (i, table) ∧
    count_ready (findAll "tr" table) = Ok 1 ∧
    0 ≤ 1 ≤ Z.of_nat (length (findAll "tr" table)).
Proof.
  apply (ready_counts_bounded soup_report [(Some (NavigableString "Xenial"), 1)]).
  - vm_compute. reflexivity.
  - vm_compute. reflexivity.
Defined.

Lemma scan_rows_NoDup (release : option node) (trs : list node)
    (d d' : ready_dict) :
  NoDup (keys d) → scan_rows release trs d = Ok d' → NoDup (keys d').
Proof.
  revert d. induction trs as [|tag rest IH]; intros d Hnd; simpl.
  - by intros [= <-].
  - destruct (row_ready tag) as [[|]|e]; simpl; [| |done].
    + unfold dict_incr. destruct (dict_get release d) as [n|]; simpl; [|done].
      apply IH. by apply keys_set_NoDup.
    + by apply IH.
Qed.

Lemma scan_tables_NoDup (doc : list node) (tables : list (nat * node))
    (d d' : ready_dict) :
  NoDup (keys d) → scan_tables doc tables d = Ok d' → NoDup (keys d').
Proof.
  revert d. induction tables as [|[i table] rest IH]; intros d Hnd; simpl.
  - by intros [= <-].
  - destruct (has_attr "id" table); simpl; [|by apply IH].
    destruct (release_of doc i) as [r|e]; simpl; [|done].
    destruct (decide (r = _)); [by apply IH|].
    destruct (scan_rows r (findAll "tr" table) (dict_set r 0 d))
      as [d1|e] eqn:Hrows; simpl; [|done].
    apply IH. apply (scan_rows_NoDup _ _ _ _ (keys_set_NoDup r 0 d Hnd) Hrows).
Qed.

Lemma fold_dict_set_NoDup {A K V} `{EqDecision K} (f : A → K) (g : A → V)
    (l : list A) (d : list (K * V)) :
  NoDup (keys d) →
  NoDup (keys (fold_left (λ acc x, dict_set (f x) (g x) acc) l d)).
Proof.
  revert d. induction l as [|x l IH]; intros d Hnd; simpl; [done|].
  apply IH. by apply keys_set_NoDup.
Qed.

Lemma sru_ages_loop_NoDup clock (i : nat) (l : list Series)
    (d : list (string * SeriesAgeStats)) :
  NoDup (keys d) → NoDup (keys (sru_ages_loop clock i l d)).
Proof.
  revert i d. induction l as [|x l IH]; intros i d Hnd; simpl; [done|].
  apply IH. by apply keys_set_NoDup.
Qed.

(** No key occurs twice in a mapping returned by one of the three
    collectors, whatever names the series or the releases carry. *)
Theorem collectors_keys_NoDup (clock : nat → Z) (ubuntu : Distribution)
    (soup : node) :
  (∀ q, sru_queue_count ubuntu = Ok q → NoDup (keys q)) ∧
  (∀ a, sru_ages clock ubuntu = Ok a → NoDup (keys a)) ∧
  (∀ r, ready_count_of_soup soup = Ok r → NoDup (keys r)).
Proof.
  split; [|split].
  - intros q. unfold sru_queue_count.
    destruct (stable_series_of ubuntu) as [l|e]; simpl; [|done].
    intros [= <-]. apply (fold_dict_set_NoDup name queue_depth). constructor.
  - intros a. unfold sru_ages.
    destruct (stable_series_of ubuntu) as [l|e]; simpl; [|done].
    intros [= <-]. apply sru_ages_loop_NoDup. constructor.
  - intros r Hr.
    apply (scan_tables_NoDup (elements soup) (tables_of soup) [] r);
      [constructor|done].
Qed.

Lemma collectors_keys_NoDup_witness :
  NoDup (keys [(Some (NavigableString "Xenial"), 0)]).
Proof.
  apply (proj2 (proj2 (collectors_keys_NoDup (λ _, 0) ubuntu_ABC soup_twice))).
  vm_compute. reflexivity.
Defined.

Lemma filter_none {A} (P : A → Prop) `{∀ x, Decision (P x)} (l : list A) :
  (∀ x, x ∈ l → ¬ P x) → filter P l = [].
Proof.
  induction l as [|x l IH]; intros Hno; [done|].
  rewrite filter_cons, decide_False by (apply Hno; by left).
  apply IH. intros y Hy. apply Hno. by right.
Qed.

(** A report in which no table has an [id] gives the empty mapping, and
    none of its rows is read. *)
Theorem no_identified_table_empty (soup : node) :
  (∀ i table, (i, table) ∈ tables_of soup → has_attr "id" table = false) →
  ready_count_of_soup soup = Ok [].
Proof.
  intros Hno. unfold ready_count_of_soup.
  rewrite scan_tables_filter.
  - assert (filter (scanned (elements soup)) (tables_of soup) = []) as ->; [|done].
    apply filter_none. intros [i table] Hin [Hid _].
    simpl in Hid. rewrite (Hno i table Hin) in Hid. done.
  - intros [i table] Hin. by apply elem_of_tables_of in Hin as (? & _).
Qed.

Lemma no_identified_table_empty_witness :
  ready_count_of_soup soup_anonymous = Ok [].
Proof.
  apply no_identified_table_empty. intros i table Hin.
  assert (Hall : Forall (λ p : nat * node, has_attr "id" p.2 = false)
                        (tables_of soup_anonymous))
    by (vm_compute; repeat constructor).
  rewrite Forall_forall in Hall. exact (Hall (i, table) Hin).
Defined.

Lemma count_ready_Raise (trs : list node) (e : pyexn) :
  count_ready trs = Raise e → ∃ tag, tag ∈ trs ∧ row_ready tag = Raise e.
Proof.
  induction trs as [|x rest IH]; simpl; [done|].
  destruct (row_ready x) as [ready|e'] eqn:Hx; simpl.
  - destruct (count_ready rest) as [n|e'']; simpl; [done|].
    intros [= ->]. destruct (IH eq_refl) as (tag & Hin & Htag).
    exists tag. split; [by right|done].
  - intros [= ->]. exists x. split; [by left|done].
Qed.

(** An exception of the table loop is the exception of a row of a table
    that is not skipped. *)
Lemma scan_tables_Raise (doc : list node) (tables : list (nat * node))
    (d : ready_dict) (e : pyexn) :
  (∀ p, p ∈ tables → (1 ≤ p.1)%nat) →
  scan_tables doc tables d = Raise e →
  ∃ i table tag, (i, table) ∈ tables ∧ scanned doc (i, table) ∧
                 tag ∈ findAll "tr" table ∧ row_ready tag = Raise e.
Proof.
  revert d. induction tables as [|[i table] rest IH]; intros d Hpos; [done|].
  assert (Hrest : ∀ p, p ∈ rest → (1 ≤ p.1)%nat)
    by (intros p Hp; apply Hpos; by right).
  assert (Hnext : ∀ d', scan_tables doc rest d' = Raise e →
            ∃ i0 table0 tag, (i0, table0) ∈ (i, table) :: rest ∧
              scanned doc (i0, table0) ∧ tag ∈ findAll "tr" table0 ∧
              row_ready tag = Raise e).
  { intros d' Hd'. destruct (IH d' Hrest Hd') as (i0 & t0 & tag & Hin & H').
    exists i0, t0, tag. split; [by right|done]. }
  simpl. destruct (has_attr "id" table) eqn:Hid; simpl; [|by apply Hnext].
  destruct (release_of_pos doc i) as [r Hr]; [apply (Hpos (i, table)); by left|].
  rewrite Hr. simpl.
  destruct (decide (r = Some (NavigableString summary_heading))) as [->|Hne];
    [by apply Hnext|].
  rewrite (scan_rows_count r _ _ 0 (dict_get_set_eq _ _ _)).
  destruct (count_ready (findAll "tr" table)) as [c|e'] eqn:Hc; simpl;
    [by apply Hnext|].
  intros [= ->]. apply count_ready_Raise in Hc as (tag & Hin & Htag).
  exists i, table, tag. split; [by left|]. split; [|done].
  split; [done|]. simpl. congruence.
Qed.

Lemma all_verified_Raise (bugs : list node) (e : pyexn) :
  all_verified bugs = Raise e → e = TypeError ∨ e = KeyError.
Proof.
  induction bugs as [|bug rest IH]; simpl; [done|].
  destruct (getitem bug "class") as [cls|e'] eqn:Hg; simpl.
  - destruct (negb (attr_contains "verified" cls)); [done|apply IH].
  - intros [= ->]. destruct bug as [s|t a c]; simpl in Hg.
    + left. congruence.
    + right. destruct (a !! "class"); congruence.
Qed.

Lemma row_ready_Raise (tag : node) (e : pyexn) :
  row_ready tag = Raise e → e ∈ scan_exceptions.
Proof.
  unfold row_ready, scan_exceptions.
  destruct (decide (length (findAll "td" tag) = 0%nat)); [done|].
  destruct (list_index (findAll "td" tag) 0) as [c0|e0] eqn:H0; simpl.
  2:{ intros [= <-]. unfold list_index in H0.
      destruct (_ !! _); [done|]. injection H0 as <-. set_solver. }
  destruct (is_failure (text c0)); [done|].
  destruct (list_index (findAll "td" tag) 5) as [c5|e5] eqn:H5; simpl.
  2:{ intros [= <-]. unfold list_index in H5.
      destruct (_ !! _); [done|]. injection H5 as <-. set_solver. }
  destruct (py_int (tag_string c5)) as [days|ed] eqn:Hd; simpl.
  2:{ intros [= <-]. unfold py_int, int_of_string in Hd.
      destruct (tag_string c5) as [s|]; [|injection Hd as <-; set_solver].
      destruct (match strip _ with [] => _ | _ => _ end) as [neg ds].
      destruct (digits_value 0 false ds); [done|]. injection Hd as <-. set_solver. }
  destruct (decide (days >= 7)); [|done].
  destruct (list_index (findAll "td" tag) 4) as [c4|e4] eqn:H4; simpl.
  2:{ intros [= <-]. unfold list_index in H4.
      destruct (_ !! _); [done|]. injection H4 as <-. set_solver. }
  intros [-> | ->]%all_verified_Raise; set_solver.
Qed.

(** An exception that ends the scan of a report was raised by a row of a
    table that is not skipped, and is an [IndexError], a [TypeError], a
    [ValueError] or a [KeyError]. *)
Theorem scan_exception_origin (soup : node) (e : pyexn) :
  ready_count_of_soup soup = Raise e →
  e ∈ scan_exceptions ∧
  ∃ i table tag,
    (i, table) ∈ tables_of soup ∧ scanned (elements soup) (i, table) ∧
    tag ∈ findAll "tr" table ∧ row_ready tag = Raise e.
Proof.
  intros Hscan. apply scan_tables_Raise in Hscan
    as (i & table & tag & Hin & Hs & Htag & Hrow).
  - split; [by apply (row_ready_Raise tag)|]. by exists i, table, tag.
  - intros [i table] Hin. by apply elem_of_tables_of in Hin as (? & _).
Qed.

Lemma scan_exception_origin_witness :
  ValueError ∈ scan_exceptions ∧
  ∃ i table tag,
    (i, table) ∈ tables_of soup_bad_days ∧
    scanned (elements soup_bad_days) (i, table) ∧
    tag ∈ findAll "tr" table ∧ row_ready tag = Raise ValueError.
Proof.
  apply (scan_exception_origin soup_bad_days ValueError).
  vm_compute. reflexivity.
Defined.

(** The scan of a report returns a mapping exactly when no row of a table
    that is not skipped raises. *)
Theorem scan_returns_iff (soup : node) :
  (∃ ready_srus, ready_count_of_soup soup = Ok ready_srus) ↔
  (∀ i table tag,
     (i, table) ∈ tables_of soup → scanned (elements soup) (i, table) →
     tag ∈ findAll "tr" table → ¬ raises (row_ready tag)).
Proof.
  split.
  - intros [d Hd] i table tag Hin [Hid Hne] Htag Hraise. simpl in *.
    destruct (release_of_pos (elements soup) i) as [r Hr];
      [by apply elem_of_tables_of in Hin as (? & _)|].
    assert (Hc : counted_as (elements soup) r (i, table)).
    { split; [done|]. split; [done|]. simpl. congruence. }
    destruct (scan_tables_raises (elements soup) (tables_of soup) []
                i table r tag Hin Hc Htag Hraise) as [e He].
    unfold ready_count_of_soup in Hd. congruence.
  - intros Hrows. destruct (ready_count_of_soup soup) as [d|e] eqn:Hscan;
      [by exists d|].
    apply scan_tables_Raise in Hscan as (i & table & tag & Hin & Hs & Htag & Hrow).
    + destruct (Hrows i table tag Hin Hs Htag). by exists e.
    + intros [i table] Hin. by apply elem_of_tables_of in Hin as (? & _).
Qed.

Lemma all_verified_returns (bugs : list node) :
  (∀ bug, bug ∈ bugs → has_attr "class" bug = true) →
  ∃ verified, all_verified bugs = Ok verified.
Proof.
  induction bugs as [|bug rest IH]; intros Hcls; simpl; [by exists true|].
  assert (Hb := Hcls bug (list_elem_of_here _ _)).
  destruct bug as [s|t a c]; simpl in Hb; [done|].
  apply bool_decide_eq_true in Hb as [v Hv]. simpl. rewrite Hv. simpl.
  destruct (negb (attr_contains "verified" v)); [by exists false|].
  apply IH. intros b Hin. apply Hcls. by right.
Qed.

(** A row of the expected shape never raises: six data cells, the sixth
    holding a single string that reads as an integer, and a [class]
    attribute on every link of the fifth. *)
Theorem well_shaped_row_returns (tag c5 : node) (s : string) (days : Z) :
  findAll "td" tag !! 5%nat = Some c5 →
  tag_string c5 = Some s →
  int_of_string s = Ok days →
  (∀ c4 bug, findAll "td" tag !! 4%nat = Some c4 →
             bug ∈ findAll "a" c4 → has_attr "class" bug = true) →
  ∃ ready, row_ready tag = Ok ready.
Proof.
  intros H5 Hs Hint Hcls.
  destruct (findAll "td" tag !! 0%nat) as [c0|] eqn:H0.
  2:{ apply lookup_ge_None in H0. apply lookup_lt_Some in H5. lia. }
  destruct (findAll "td" tag !! 4%nat) as [c4|] eqn:H4.
  2:{ apply lookup_ge_None in H4. apply lookup_lt_Some in H5. lia. }
  rewrite (row_ready_cells _ _ H0).
  destruct (is_failure (text c0)); [by exists false|].
  rewrite (list_index_Some _ _ _ H5). simpl. rewrite Hs. simpl. rewrite Hint.
  simpl. destruct (decide (days >= 7)); [|by exists false].
  rewrite (list_index_Some _ _ _ H4). simpl.
  apply all_verified_returns. intros bug. by apply Hcls.
Qed.

Lemma well_shaped_row_returns_witness :
  ∃ ready, row_ready (report_row "pkg" " 12 " [bug_link ["verified"]; bug_link []])
           = Ok ready.
Proof.
  apply (well_shaped_row_returns _ (td [NavigableString " 12 "]) " 12 " 12).
  - reflexivity.
  - reflexivity.
  - vm_compute. reflexivity.
  - intros c4 bug [= <-] Hin.
    assert (Hall : Forall (λ b, has_attr "class" b = true)
              (findAll "a" (td [bug_link ["verified"]; bug_link []])))
      by (vm_compute; repeat constructor).
    rewrite Forall_forall in Hall. by apply Hall.
Defined.

(** The first cell marks a failure exactly when its text contains one of
    the four markers as a substring, in that spelling. *)
Theorem is_failure_spec (failure : string) :
  is_failure failure = true ↔
  ∃ marker pre post,
    marker ∈ failure_markers ∧ failure = pre +:+ marker +:+ post.
Proof.
  unfold is_failure, failure_markers. rewrite !orb_true_iff, !str_in_spec.
  split.
  - intros [[[(pre & post & H)|(pre & post & H)]|(pre & post & H)]|(pre & post & H)];
      eexists _, pre, post; (split; [|exact H]); set_solver.
  - intros (marker & pre & post & Hin & H).
    repeat (apply elem_of_cons in Hin as [->|Hin]);
      [left; left; left|left; left; right|left; right|right|by apply elem_of_nil in Hin];
      by exists pre, post.
Qed.

(** ** Nested tables *)

Lemma node_forall_ind (P : node → Prop) :
  (∀ s, P (NavigableString s)) →
  (∀ t a c, Forall P c → P (Tag t a c)) →
  ∀ n, P n.
Proof.
  intros Hs Ht. fix IH 1. intros [s|t a c]; [apply Hs|].
  apply Ht. induction c as [|x c IHc]; constructor; [apply IH|apply IHc].
Qed.

Lemma elem_of_flat_map {A B} (f : A → list B) (l : list A) (y : B) :
  y ∈ flat_map f l ↔ ∃ x, x ∈ l ∧ y ∈ f x.
Proof.
  rewrite list_elem_of_In, in_flat_map. split; intros (x & Hx & Hy); exists x;
    by rewrite ?list_elem_of_In in *.
Qed.

Lemma elements_trans (x y z : node) :
  x ∈ elements y → y ∈ elements z → x ∈ elements z.
Proof.
  intros Hxy. revert z. apply (node_forall_ind (λ z, y ∈ elements z → x ∈ elements z)).
  - intros s. simpl. intros ->%list_elem_of_singleton. exact Hxy.
  - intros t a c IH. simpl. intros [->|Hy]%elem_of_cons; [exact Hxy|].
    right. apply elem_of_flat_map in Hy as (c0 & Hc0 & Hy).
    apply elem_of_flat_map. exists c0. split; [done|].
    rewrite Forall_forall in IH. by apply IH.
Qed.

Lemma descendants_elements (x n : node) : x ∈ descendants n → x ∈ elements n.
Proof.
  destruct n; simpl; [by intros ?%elem_of_nil|]. by right.
Qed.

Lemma descendants_trans (x y z : node) :
  x ∈ descendants y → y ∈ descendants z → x ∈ descendants z.
Proof.
  intros Hxy Hyz. destruct z as [s|t a c]; simpl in *;
    [by apply elem_of_nil in Hyz|].
  apply elem_of_flat_map in Hyz as (c0 & Hc0 & Hy).
  apply elem_of_flat_map. exists c0. split; [done|].
  apply (elements_trans _ y); [|done]. by apply descendants_elements.
Qed.

(** [findAll] searches the whole subtree: what it finds below a node it also
    finds below every node above.  So the rows of a table nested in another
    are rows of the outer table too, and the cells of a nested row are cells
    of the outer row. *)
Theorem findAll_nested (nm : string) (inner outer x : node) :
  inner ∈ descendants outer → x ∈ findAll nm inner → x ∈ findAll nm outer.
Proof.
  unfold findAll. intros Hin [Htag Hx]%list_elem_of_filter.
  apply list_elem_of_filter. split; [done|]. by apply (descendants_trans _ inner).
Qed.

Lemma findAll_nested_witness :
  report_row "inner-pkg" "9" [] ∈ findAll "tr" outer_table.
Proof.
  apply (findAll_nested "tr" inner_table outer_table).
  - refine (bool_decide_unpack _ _). vm_compute. exact I.
  - refine (bool_decide_unpack _ _). vm_compute. exact I.
Defined.

(** ** Runs that abort, and what a run pushes *)

(** When the current series is not among the active ones, [collect] raises
    [ValueError] at once: nothing is printed, logged or pushed, whatever the
    report holds. *)
Theorem collect_stale_current (dryrun : bool) (w : World) :
  current_series (ubuntu w)
    ∉ filter (λ s : Series, active s) (series (ubuntu w)) →
  collect dryrun w = Prog [] (Raise ValueError).
Proof.
  intros Hnin. unfold collect, sru_queue_count, stable_series_of.
  by rewrite (list_remove_Raise _ _ Hnin).
Qed.

Lemma collect_stale_current_witness :
  collect false world_stale = Prog [] (Raise ValueError).
Proof.
  apply collect_stale_current.
  refine (bool_decide_unpack _ _). vm_compute. exact I.
Defined.

(** Only [HTMLParseError] is caught.  When the report cannot be fetched,
    when the tree builder raises anything else, or when a row makes the scan
    raise, [collect] ends with that exception before its first [print]: the
    queue metrics, though computed, are not shown. *)
Theorem collect_report_error (dryrun : bool) (w : World) q (e : pyexn) :
  sru_queue_count (ubuntu w) = Ok q →
  urlopen_read w = Raise e ∨
  (∃ bytes, urlopen_read w = Ok bytes ∧
            BeautifulSoup w bytes = Raise e ∧ e ≠ HTMLParseError) ∨
  (∃ bytes soup, urlopen_read w = Ok bytes ∧
                 BeautifulSoup w bytes = Ok soup ∧
                 ready_count_of_soup soup = Raise e) →
  collect dryrun w = Prog [] (Raise e).
Proof.
  intros Hq Hcase.
  assert (Hr : sru_verified_and_ready_count w = Prog [] (Raise e)).
  { unfold sru_verified_and_ready_count.
    destruct Hcase as [Hread|[(bytes & Hread & Hparse & Hne)
                             |(bytes & soup & Hread & Hparse & Hscan)]];
      rewrite Hread; [reflexivity| |]; cbn; rewrite Hparse.
    - by destruct e.
    - cbn. by rewrite Hscan. }
  unfold collect. by rewrite Hq, Hr.
Qed.

Lemma collect_report_error_witness :
  collect true world_unreachable = Prog [] (Raise URLError).
Proof.
  apply (collect_report_error true world_unreachable [("A", 3); ("B", 0)]).
  - vm_compute. reflexivity.
  - left. reflexivity.
Defined.

Lemma collect_pushes (w : World) q r a :
  sru_queue_count (ubuntu w) = Ok q →
  sru_verified_and_ready_count w = Prog [] (Ok (Some r)) →
  sru_ages (today w) (ubuntu w) = Ok a →
  collect false w =
    Prog ((Print <$> console_report w q a r)
          ++ [Print "Pushing data...";
              PushGateway "foundations-sru" (pushed_registry w q a r)])
         (push2gateway w "foundations-sru" (pushed_registry w q a r)).
Proof.
  intros Hq Hr Ha. unfold collect. rewrite Hq, Hr, Ha.
  repeat (progress (cbn; rewrite ?print_lines_eq)).
  unfold console_report.
  repeat (progress (rewrite ?fmap_app, ?fmap_cons, <- ?app_assoc;
                    cbn [app negb trace outcome mret prog_ret]));
  rewrite ?app_nil_r; reflexivity.
Qed.

Lemma make_gauge_samples (nm doc : string) (values : list (string * Z)) :
  NoDup (keys values) → samples (make_gauge nm doc values) = values.
Proof.
  intros Hnd. simpl.
  rewrite (fold_dict_set_fresh fst snd values []) by done. simpl.
  induction values as [|[k v] values IH]; [done|]. simpl. f_equal.
  apply IH. unfold keys in *. by apply NoDup_cons in Hnd as [_ ?].
Qed.

Lemma keys_fmap_snd {A B} (f : A → B) (l : list (string * A)) :
  keys ((λ kv, (kv.1, f kv.2)) <$> l) = keys l.
Proof. unfold keys. induction l as [|[k v] l IH]; simpl; [done|]. by f_equal. Qed.

Lemma keys_fmap_fst {A B C} (f : A → B) (l : list (A * C)) :
  keys ((λ kv, (f kv.1, kv.2)) <$> l) = f <$> keys l.
Proof. unfold keys. induction l as [|[k v] l IH]; simpl; [done|]. by f_equal. Qed.

(** What a normal run pushes is what it printed: the registry holds the
    five gauges, each labelled by "series", the first four with one sample
    per series equal to the value computed for it, and the fifth with one
    sample per release when the releases print differently. *)
Theorem pushed_samples (w : World) q r a :
  sru_queue_count (ubuntu w) = Ok q →
  outcome (sru_verified_and_ready_count w) = Ok (Some r) →
  sru_ages (today w) (ubuntu w) = Ok a →
  ∃ g1 g2 g3 g4 g5,
    PushGateway "foundations-sru" [g1; g2; g3; g4; g5] ∈ trace (collect false w) ∧
    Forall (λ g, labelnames g = ["series"]) [g1; g2; g3; g4; g5] ∧
    samples g1 = q ∧
    samples g2 = (λ kv, (kv.1, oldest_age_in_days kv.2)) <$> a ∧
    samples g3 = (λ kv, (kv.1, ten_day_backlog_age kv.2)) <$> a ∧
    samples g4 = (λ kv, (kv.1, ten_day_backlog_count kv.2)) <$> a ∧
    (NoDup (str_of_key w <$> keys r) →
     samples g5 = (λ kv, (str_of_key w kv.1, kv.2)) <$> r).
Proof.
  intros Hq Hr%outcome_scraper_Some Ha.
  rewrite (collect_pushes w q r a Hq Hr Ha). cbn [trace].
  assert (Hkq : NoDup (keys q)).
  { revert Hq. unfold sru_queue_count.
    destruct (stable_series_of (ubuntu w)) as [l|e]; simpl; [|done].
    intros [= <-]. apply (fold_dict_set_NoDup name queue_depth). constructor. }
  assert (Hka : NoDup (keys a)).
  { revert Ha. unfold sru_ages.
    destruct (stable_series_of (ubuntu w)) as [l|e]; simpl; [|done].
    intros [= <-]. apply sru_ages_loop_NoDup. constructor. }
  unfold pushed_registry. eexists _, _, _, _, _. split.
  { apply elem_of_app. right. right. left. }
  split; [repeat constructor|].
  split; [by apply make_gauge_samples|].
  split; [apply make_gauge_samples; by rewrite keys_fmap_snd|].
  split; [apply make_gauge_samples; by rewrite keys_fmap_snd|].
  split; [apply make_gauge_samples; by rewrite keys_fmap_snd|].
  intros Hnd. apply make_gauge_samples. by rewrite keys_fmap_fst.
Qed.

Lemma pushed_samples_witness :
  ∃ g1 g2 g3 g4 g5,
    PushGateway "foundations-sru" [g1; g2; g3; g4; g5]
      ∈ trace (collect false world_report) ∧
    Forall (λ g, labelnames g = ["series"]) [g1; g2; g3; g4; g5] ∧
    samples g1 = [("A", 3); ("B", 0)] ∧
    samples g2 = (λ kv, (kv.1, oldest_age_in_days kv.2))
                   <$> [("A", age_stats [3; 12; 25]); ("B", age_stats [])] ∧
    samples g3 = (λ kv, (kv.1, ten_day_backlog_age kv.2))
                   <$> [("A", age_stats [3; 12; 25]); ("B", age_stats [])] ∧
    samples g4 = (λ kv, (kv.1, ten_day_backlog_count kv.2))
                   <$> [("A", age_stats [3; 12; 25]); ("B", age_stats [])] ∧
    (NoDup (str_of_key world_report <$> keys [(Some (NavigableString "Xenial"), 1)]) →
     samples g5 = (λ kv, (str_of_key world_report kv.1, kv.2))
                    <$> [(Some (NavigableString "Xenial"), 1)]).
Proof.
  apply (pushed_samples world_report).
  - vm_compute. reflexivity.
  - vm_compute. reflexivity.
  - vm_compute. reflexivity.
Defined.

Lemma scan_returns_iff_witness :
  ¬ raises (row_ready (report_row "pkg" "6" [])).
Proof.
  refine (proj1 (scan_returns_iff soup_report) _ 19%nat
            (report_table "xenial"
               [ Tag "tr" ∅ [Tag "th" ∅ [NavigableString "Package"]];
                 report_row "pkg" "7" [bug_link ["verified"]];
                 report_row "pkg" "6" [] ])
            (report_row "pkg" "6" []) _ _ _).
  - eexists. vm_compute. reflexivity.
  - refine (bool_decide_unpack _ _). vm_compute. exact I.
  - refine (bool_decide_unpack _ _). vm_compute. exact I.
  - refine (bool_decide_unpack _ _). vm_compute. exact I.
Defined.

Lemma is_failure_spec_witness : is_failure "Build Failed (amd64)" = true.
Proof.
  apply (proj2 (is_failure_spec "Build Failed (amd64)")).
  exists "Failed", "Build ", " (amd64)". split; [|reflexivity].
  refine (bool_decide_unpack _ _). vm_compute. exact I.
Defined.

Lemma not_elem_of_prints (e : event) (lines : list string) :
  is_push e = true ∨ (∃ msg, e = LogError msg) → e ∉ (Print <$> lines).
Proof.
  intros He (l & -> & _)%list_elem_of_fmap.
  destruct He as [He|[msg He]]; done.
Qed.

(** A run that ends normally had its three collectors return, the scraper
    with a mapping: it logged no error, and in normal mode its push
    succeeded.  In particular a run that logs the parse error never ends
    normally. *)
Theorem collect_completes (dryrun : bool) (w : World) :
  outcome (collect dryrun w) = Ok () →
  ∃ q r a,
    sru_queue_count (ubuntu w) = Ok q ∧
    sru_verified_and_ready_count w = Prog [] (Ok (Some r)) ∧
    sru_ages (today w) (ubuntu w) = Ok a ∧
    (∀ msg, LogError msg ∉ trace (collect dryrun w)) ∧
    (dryrun = false →
     ∃ registry, push2gateway w "foundations-sru" registry = Ok ()).
Proof.
  intros Hdone.
  destruct (sru_queue_count (ubuntu w)) as [q|e] eqn:Hq;
    [|unfold collect in Hdone; by rewrite Hq in Hdone].
  destruct (sru_verified_and_ready_count_cases w) as [[r Hr]|[Hr|[e Hr]]];
    [| |unfold collect in Hdone; by rewrite Hq, Hr in Hdone].
  - destruct (sru_ages (today w) (ubuntu w)) as [a|e] eqn:Ha;
      [|unfold collect in Hdone; by rewrite Hq, Hr, Ha in Hdone].
    exists q, r, a. split; [done|]. split; [done|]. split; [done|].
    destruct dryrun.
    + destruct (collect_returns true w q r a Hq Hr Ha) as (_ & _ & Hc).
      rewrite Hc. cbn [trace]. split; [|done].
      intros msg. apply not_elem_of_prints. right. by exists msg.
    + rewrite (collect_pushes w q r a Hq Hr Ha) in Hdone |- *.
      cbn [trace outcome] in *. split; [|intros _; by eexists].
      intros msg [Hin|Hin]%elem_of_app.
      * revert Hin. apply not_elem_of_prints. right. by exists msg.
      * apply elem_of_cons in Hin as [?|Hin]; [done|].
        apply elem_of_cons in Hin as [?|Hin]; [done|by apply elem_of_nil in Hin].
  - destruct (sru_ages (today w) (ubuntu w)) as [a|e] eqn:Ha;
      [|unfold collect in Hdone; by rewrite Hq, Hr, Ha in Hdone].
    by rewrite (collect_unparsed dryrun w q a Hq Hr Ha) in Hdone.
Qed.

Lemma collect_completes_witness :
  ∃ q r a,
    sru_queue_count (ubuntu world_report) = Ok q ∧
    sru_verified_and_ready_count world_report = Prog [] (Ok (Some r)) ∧
    sru_ages (today world_report) (ubuntu world_report) = Ok a ∧
    (∀ msg, LogError msg ∉ trace (collect false world_report)) ∧
    (false = false →
     ∃ registry, push2gateway world_report "foundations-sru" registry = Ok ()).
Proof.
  apply (collect_completes false world_report).
  vm_compute. reflexivity.
Defined.

(** ** The gate on the push, and documents that are no report *)



(** C9 as stated fails: a normal run whose report has a row that makes the
    scan raise, or whose report cannot be fetched, ends with that exception
    before the console report; nothing is printed and nothing is pushed. *)
Lemma C9_aborted_run_counterexample :
  collect false world_bad_row = Prog [] (Raise ValueError) ∧
  collect false world_unreachable = Prog [] (Raise URLError).
Proof. split; vm_compute; reflexivity. Qed.

(** C9, as the code has it: a dry run never pushes to the gateway, whatever
    happens in it.  In a run whose three collectors return (the scraper with
    a mapping), a dry run prints the console report and nothing else, and a
    normal run prints the same report, then "Pushing data...", then pushes
    once, under the job name "foundations-sru", the registry of the five
    gauge families built from the values printed; its outcome is that of
    the push. *)
Theorem C9_dry_run_gate (w : World) :
  push_count (trace (collect true w)) = 0%nat ∧
  (∀ q r a,
     sru_queue_count (ubuntu w) = Ok q →
     outcome (sru_verified_and_ready_count w) = Ok (Some r) →
     sru_ages (today w) (ubuntu w) = Ok a →
     collect true w = Prog (Print <$> console_report w q a r) (Ok ()) ∧
     collect false w =
       Prog ((Print <$> console_report w q a r)
             ++ [Print "Pushing data...";
                 PushGateway "foundations-sru" (pushed_registry w q a r)])
            (push2gateway w "foundations-sru" (pushed_registry w q a r)) ∧
     gauge_name <$> pushed_registry w q a r = gauge_families ∧
     push_count (trace (collect false w)) = 1%nat).
Proof.
  split; [apply collect_dryrun_no_push|].
  intros q r a Hq Hr%outcome_scraper_Some Ha.
  destruct (collect_returns true w q r a Hq Hr Ha) as (_ & _ & Hdry).
  pose proof (collect_pushes w q r a Hq Hr Ha) as Hpush.
  split; [done|]. split; [done|]. split; [reflexivity|].
  rewrite Hpush. cbn [trace].
  by rewrite push_count_app, push_count_prints.
Qed.

Lemma C9_dry_run_gate_witness :
  let q := [("A", 3); ("B", 0)] in
  let r := [(Some (NavigableString "Xenial"), 1)] in
  let a := [("A", age_stats [3; 12; 25]); ("B", age_stats [])] in
  collect true world_report
    = Prog (Print <$> console_report world_report q a r) (Ok ()) ∧
  collect false world_report =
    Prog ((Print <$> console_report world_report q a r)
          ++ [Print "Pushing data...";
              PushGateway "foundations-sru" (pushed_registry world_report q a r)])
         (push2gateway world_report "foundations-sru"
            (pushed_registry world_report q a r)) ∧
  gauge_name <$> pushed_registry world_report q a r = gauge_families ∧
  push_count (trace (collect false world_report)) = 1%nat.
Proof.
  apply (proj2 (C9_dry_run_gate world_report)).
  - vm_compute. reflexivity.
  - vm_compute. reflexivity.
  - vm_compute. reflexivity.
Defined.




